(** * gofe: the local file explorer and the session binder

    A shallow embedding of the two Go sources of the repository:

    - package [fe] (the [LocalFileExplorer] and its helpers), written against
      an interface of the calls it makes into the Go standard library
      ([os], [io], [ioutil], [filepath], [bufio]);
    - package [main] (the action dispatcher [apiHandler] and the session
      binder [Contexter]).

    Module [Go] holds what the sources take from the Go run time and standard
    library and that can be written down as plain functions: error values,
    run-time panics, [strconv.Atoi], [filepath.Clean] and [filepath.Join],
    [os.FileMode].  Module [Fe] is package [fe]; module [MemFS] is an
    in-memory file system implementing the interface of [Fe]; module [Main] is
    package [main].  The definitions come first; [Checks] runs them on known
    inputs, [FeFacts] and [MainFacts] hold what is proved of the two
    packages. *)

From Stdlib Require Import ZArith Ascii String List Lia Bool DecimalString.
From stdpp Require Import base option list strings gmap.

Local Open Scope string_scope.
Local Open Scope Z_scope.
Local Open Scope list_scope.

(* ===================================================================== *)
(** * What the sources use from Go                                         *)
(* ===================================================================== *)

Module Go.

(** ** Error values

    A Go [error] is an interface value, [nil] or a pointer to one of the
    error structs below. *)

Inductive Errno : Set :=
| ENOENT | EEXIST | EPERM | EACCES | ENOTDIR | EISDIR | ENOTEMPTY | EINVAL
| EBUSY.

Inductive NumErr : Set := ErrSyntax | ErrRange.

Inductive GoError : Set :=
| PathError (Op Path : string) (Err : Errno)        (* *os.PathError *)
| LinkError (Op Old New : string) (Err : Errno)     (* *os.LinkError *)
| NumError (Func Num : string) (Err : NumErr)       (* *strconv.NumError *)
| ErrorString (s : string)                          (* errors.New(s) *)
| CustomError (What : string).                      (* *fe.CustomError *)

Definition error : Set := option GoError.
Definition nil : error := None.

#[global] Instance Errno_eq_dec : EqDecision Errno.
Proof. solve_decision. Defined.
#[global] Instance NumErr_eq_dec : EqDecision NumErr.
Proof. solve_decision. Defined.
#[global] Instance GoError_eq_dec : EqDecision GoError.
Proof. solve_decision. Defined.

Definition errors_New (s : string) : GoError := ErrorString s.

(** ** Results and run-time panics

    A Go call either returns (a value and the new state of the world) or
    panics.  [M W A] is the type of a Go function body that returns an [A]
    and runs against a world [W]. *)

Inductive outcome (W A : Type) : Type :=
| Ret (a : A) (w : W)
| Panic (w : W).
Arguments Ret {W A} a w.
Arguments Panic {W A} w.

Definition M (W A : Type) : Type := W -> outcome W A.

#[global] Instance M_ret {W} : MRet (M W) := fun A a w => Ret a w.
#[global] Instance M_bind {W} : MBind (M W) := fun A B f m w =>
  match m w with
  | Ret a w' => f a w'
  | Panic w' => Panic w'
  end.

(** A call into the library: returns, never panics. *)
Definition sys {W A} (f : W -> A * W) : M W A :=
  fun w => let (a, w') := f w in Ret a w'.

Definition panic {W A} : M W A := fun w => Panic w.

(** [defer d] around a body: [d] runs when the body returns and when it
    panics; its result is dropped. *)
Definition defer {W A B} (d : W -> B * W) (body : M W A) : M W A :=
  fun w =>
    match body w with
    | Ret a w' => Ret a (snd (d w'))
    | Panic w' => Panic (snd (d w'))
    end.

(** [for _, x := range xs { s = body(x, s) }] with the loop's variables
    threaded as [s]. *)
Fixpoint for_range {W A S} (xs : list A) (body : A -> S -> M W S) (s : S)
  : M W S :=
  match xs with
  | [] => mret s
  | x :: xs' => s' ← body x s; for_range xs' body s'
  end.

(** The world an outcome ends in, and its returned value. *)
Definition world_of {W A} (o : outcome W A) : W :=
  match o with Ret _ w => w | Panic w => w end.
Definition value_of {W A} (o : outcome W A) : option A :=
  match o with Ret a _ => Some a | Panic _ => None end.

(** ** Bytes and decimal digits *)

Definition byte_of (c : ascii) : Z := Z.of_N (N_of_ascii c).

Definition LF : string := String (ascii_of_nat 10) EmptyString.

(** ** strconv.Atoi

    [Atoi(s)] is [ParseInt(s, 10, 0)] with the error's [Func] set to "Atoi":
    an optional sign, then one or more decimal digits; a value outside int64
    is a range error, found at the digit where the accumulator overflows. *)

Definition maxUint64 : Z := 18446744073709551615.

Fixpoint parse_digits (s : string) (n : Z) : Z + NumErr :=
  match s with
  | EmptyString => inl n
  | String c rest =>
      let d := byte_of c - 48 in
      if (0 <=? d) && (d <=? 9) then
        if n >=? maxUint64 / 10 + 1 then inr ErrRange
        else
          let n1 := n * 10 + d in
          if n1 >? maxUint64 then inr ErrRange
          else parse_digits rest n1
      else inr ErrSyntax
  end.

Definition ParseUint10 (s : string) : Z + NumErr :=
  match s with
  | EmptyString => inr ErrSyntax
  | _ => parse_digits s 0
  end.

Definition ParseInt10 (s : string) : Z + NumErr :=
  match s with
  | EmptyString => inr ErrSyntax
  | String c rest =>
      let neg := Ascii.eqb c "-" in
      let body := if Ascii.eqb c "+" || neg then rest else s in
      match ParseUint10 body with
      | inr e => inr e
      | inl un =>
          let cutoff := 2 ^ 63 in
          if negb neg && (un >=? cutoff) then inr ErrRange
          else if neg && (un >? cutoff) then inr ErrRange
          else inl (if neg then - un else un)
      end
  end.

Definition strconv_Atoi (s : string) : Z + GoError :=
  match ParseInt10 s with
  | inl n => inl n
  | inr e => inr (NumError "Atoi" s e)
  end.

(** ** os.FileMode

    A [uint32]: the low nine bits are the Unix permission bits, the high
    bits are Go's own flags. *)

Definition FileMode_of_int (n : Z) : Z := n mod 2 ^ 32.

Definition ModeDir : Z := 2 ^ 31.
Definition ModeSetuid : Z := 2 ^ 23.
Definition ModeSetgid : Z := 2 ^ 22.
Definition ModeSticky : Z := 2 ^ 20.
Definition ModePerm : Z := 511.   (* 0777 *)

Definition Perm (m : Z) : Z := Z.land m ModePerm.
Definition IsDir (m : Z) : bool := Z.testbit m 31.

(** [syscallMode]: the bits [os.Chmod] and [os.Mkdir] hand to the kernel. *)
Definition syscallMode (m : Z) : Z :=
  Z.lor (Perm m)
    (Z.lor (if Z.testbit m 23 then 2048 else 0)      (* S_ISUID 04000 *)
       (Z.lor (if Z.testbit m 22 then 1024 else 0)   (* S_ISGID 02000 *)
              (if Z.testbit m 20 then 512 else 0))). (* S_ISVTX 01000 *)

(** [FileMode.String]: the letters of the flags set among bits 31..19,
    or "-" when none is, then [rwxrwxrwx] with "-" for a clear bit. *)
Definition mode_letters : list ascii :=
  list_ascii_of_string "dalTLDpSugct?".
Definition rwx_letters : list ascii :=
  list_ascii_of_string "rwxrwxrwx".

Fixpoint flag_chars (m : Z) (i : Z) (cs : list ascii) : list ascii :=
  match cs with
  | [] => []
  | c :: cs' =>
      (if Z.testbit m (32 - 1 - i) then [c] else [])
        ++ flag_chars m (i + 1) cs'
  end.

Fixpoint perm_chars (m : Z) (i : Z) (cs : list ascii) : list ascii :=
  match cs with
  | [] => []
  | c :: cs' =>
      (if Z.testbit m (9 - 1 - i) then c else "-"%char)
        :: perm_chars m (i + 1) cs'
  end.

Definition FileMode_String (m : Z) : string :=
  let flags := flag_chars m 0 mode_letters in
  string_of_list_ascii
    ((match flags with [] => ["-"%char] | _ => flags end)
       ++ perm_chars m 0 rwx_letters).

(** ** path/filepath on Unix *)

(** The elements between the separators of a path. *)
Fixpoint split_slash (s : string) (cur : string) : list string :=
  match s with
  | EmptyString => [cur]
  | String c rest =>
      if Ascii.eqb c "/" then cur :: split_slash rest ""
      else split_slash rest (cur +:+ String c EmptyString)
  end.

Definition rooted (path : string) : bool :=
  match path with
  | String c _ => Ascii.eqb c "/"
  | EmptyString => false
  end.

(** One step of [Clean] over the elements kept so far (innermost first). *)
Definition clean_step (is_rooted : bool) (kept : list string) (e : string)
  : list string :=
  if String.eqb e "" || String.eqb e "." then kept
  else if String.eqb e ".." then
    match kept with
    | top :: below =>
        if String.eqb top ".." then e :: kept else below
    | [] => if is_rooted then [] else [e]
    end
  else e :: kept.

Definition clean_elems (path : string) : list string :=
  rev (fold_left (clean_step (rooted path)) (split_slash path "") []).

Fixpoint join_slash (es : list string) : string :=
  match es with
  | [] => ""
  | [e] => e
  | e :: es' => e +:+ "/" +:+ join_slash es'
  end.

Definition filepath_Clean (path : string) : string :=
  let body := join_slash (clean_elems path) in
  if rooted path then "/" +:+ body
  else if String.eqb body "" then "." else body.

(** [strings.Join]. *)
Fixpoint strings_Join (elems : list string) (sep : string) : string :=
  match elems with
  | [] => ""
  | [e] => e
  | e :: rest => e +:+ sep +:+ strings_Join rest sep
  end.

(** [Join]: from the first non-empty element on, the elements joined with
    "/" and cleaned; the empty string when every element is empty. *)
Fixpoint filepath_Join (elem : list string) : string :=
  match elem with
  | [] => ""
  | e :: rest =>
      if String.eqb e "" then filepath_Join rest
      else filepath_Clean (strings_Join (e :: rest) "/")
  end.

End Go.

(* ===================================================================== *)
(** * Package fe: the local file explorer                                  *)
(* ===================================================================== *)

Module Fe.
Import Go.

(** [os.FileInfo] as the sources read it. *)
Record FileInfo : Set := mkFileInfo {
  Name : string;
  Size : Z;           (* int64 *)
  Mode : Z;           (* os.FileMode *)
  ModTime : Z         (* seconds since the epoch *)
}.

(** [models.ListDirEntry]. *)
Record ListDirEntry : Set := mkListDirEntry {
  entry_Name : string;
  entry_Rights : string;
  entry_Size : string;
  entry_Date : string;
  entry_Type : string
}.

(** The argument of [filepath.Walk]: called with the path, the file's info
    ([nil] when Lstat failed) and the error met on the way to it. *)
Definition WalkFunc (W : Type) : Type :=
  string -> option FileInfo -> error -> W -> error * W.

(** The calls package [fe] makes into the standard library, against a world
    [W] that holds the file system.  Each returns what the Go function
    returns, next to the world after the call. *)
Class OS (W : Type) : Type := {
  File : Type;                                             (* *os.File *)
  os_Open : string -> W -> (File + GoError) * W;
  os_Create : string -> W -> (File + GoError) * W;
  file_Close : File -> W -> error * W;
  io_Copy : File -> File -> W -> error * W;                 (* dst, src *)
  io_Copy_string : File -> string -> W -> error * W;
                                       (* io.Copy(dst, strings.NewReader(s)) *)
  scan_lines : File -> W -> list string * W;
     (* the tokens of bufio.NewScanner over the ISO8859_1 decoder over the
        file, until Scan returns false *)
  os_Stat : string -> W -> (FileInfo + GoError) * W;
  os_Mkdir : string -> Z -> W -> error * W;
  os_Rename : string -> string -> W -> error * W;
  os_RemoveAll : string -> W -> error * W;
  os_Chmod : string -> Z -> W -> error * W;
  ioutil_ReadDir : string -> W -> (list FileInfo + GoError) * W;
  filepath_Walk : string -> WalkFunc W -> W -> error * W;
  Itoa : Z -> string;                                       (* strconv.Itoa *)
  time_Format : string -> Z -> string        (* t.Format(layout), local zone *)
}.

Record LocalFileExplorer : Set := { RelativePath : string }.

Definition NewLocalFileExplorer (path : string) : LocalFileExplorer :=
  {| RelativePath := path |}.

Definition too_big : GoError :=
  errors_New "file too big, not support getContent".

Section Methods.
Context {W : Type} `{!OS W}.

(** Copies file source to destination dest.  The [err] of the inner
    [si, err := os.Stat(source)] is a new variable: the function returns
    io.Copy's error.  When Stat fails, [si] is nil and [si.Mode()] panics. *)
Definition CopyFile (source dest : string) : M W error :=
  r ← sys (os_Open source);
  match r with
  | inr err => mret (Some err)
  | inl sf =>
      defer (file_Close sf) (
        r ← sys (os_Create dest);
        match r with
        | inr err => mret (Some err)
        | inl df =>
            defer (file_Close df) (
              err ← sys (io_Copy df sf);
              match err with
              | None =>
                  r ← sys (os_Stat source);
                  match r with
                  | inr _ => panic
                  | inl _ => mret nil
                  end
              | Some _ => mret err
              end)
        end)
  end.

Definition Init (fe : LocalFileExplorer) : M W error := mret nil.

Definition Mkdir (fe : LocalFileExplorer) (path : string) : M W error :=
  sys (os_Mkdir (filepath_Join [RelativePath fe; path])
                (FileMode_of_int 448 (* 0700 *))).

Definition list_entry (f : FileInfo) : ListDirEntry :=
  let ftype := if IsDir (Mode f) then "dir" else "file" in
  {| entry_Name := Name f;
     entry_Rights := FileMode_String (Mode f);
     entry_Size := Itoa (Size f);
     entry_Date := time_Format "2006-01-02 15:04:05" (ModTime f);
     entry_Type := ftype |}.

Definition ListDir (fe : LocalFileExplorer) (path : string)
  : M W (list ListDirEntry * error) :=
  r ← sys (ioutil_ReadDir (filepath_Join [RelativePath fe; path]));
  match r with
  | inr err => mret ([], Some err)
  | inl files =>
      results ← for_range files
                  (fun f (results : list ListDirEntry) =>
                     mret (app results [list_entry f])) [];
      mret (results, nil)
  end.

Definition Rename (fe : LocalFileExplorer) (path newPath : string)
  : M W error :=
  sys (os_Rename (filepath_Join [RelativePath fe; path])
                 (filepath_Join [RelativePath fe; newPath])).

Definition Move (fe : LocalFileExplorer) (path : list string)
  (newPath : string) : M W error :=
  for_range path (fun target _ => Rename fe target newPath) nil.

Definition Copy (fe : LocalFileExplorer) (path : list string)
  (newPath singleFilename : string) : M W error :=
  for_range path
    (fun target _ =>
       CopyFile (filepath_Join [RelativePath fe; target])
                (filepath_Join [RelativePath fe; newPath; singleFilename]))
    nil.

Definition Delete (fe : LocalFileExplorer) (path : list string)
  : M W error :=
  for_range path (fun target _ => sys (os_RemoveAll target)) nil.

(** The function handed to [filepath.Walk] by [Chmod]; its [err] is the
    closure's own parameter. *)
Definition chmod_walk (codeInt : Z) : WalkFunc W :=
  fun name info err =>
    match err with
    | None => os_Chmod name (FileMode_of_int codeInt)
    | Some _ => fun w => (err, w)
    end.

Definition Chmod (fe : LocalFileExplorer) (path : list string)
  (code : string) (recursive : bool) : M W error :=
  match strconv_Atoi code with
  | inr err => mret (Some err)
  | inl codeInt =>
      if recursive then
        for_range path
          (fun target err =>
             _ ← sys (filepath_Walk (filepath_Join [RelativePath fe; target])
                                    (chmod_walk codeInt));
             mret err)
          nil
      else
        for_range path
          (fun target _ =>
             sys (os_Chmod (filepath_Join [RelativePath fe; target])
                           (FileMode_of_int codeInt)))
          nil
  end.

Definition Close (fe : LocalFileExplorer) : M W error := mret nil.

Definition GetContent (fe : LocalFileExplorer) (item : string)
  : M W (string * error) :=
  let realPath := filepath_Join [RelativePath fe; item] in
  r ← sys (os_Stat realPath);
  match r with
  | inr err => mret ("", Some err)
  | inl fi =>
      if Size fi >? 1024 * 1024 then mret ("", Some too_big)
      else
        r ← sys (os_Open realPath);
        match r with
        | inr err => mret ("", Some err)
        | inl df =>
            defer (file_Close df) (
              texts ← sys (scan_lines df);
              mret (strings_Join texts LF, nil))
        end
  end.

Definition Edit (fe : LocalFileExplorer) (item content : string)
  : M W error :=
  r ← sys (os_Create (filepath_Join [RelativePath fe; item]));
  match r with
  | inr err => mret (Some err)
  | inl fo => defer (file_Close fo) (sys (io_Copy_string fo content))
  end.

(** The results of the items of a bulk operation whose body is one library
    call [g]: each item is run in the world the items before it left. *)
Fixpoint item_results (g : string -> W -> error * W) (items : list string)
  (w : W) : list error :=
  match items with
  | [] => []
  | t :: rest => fst (g t w) :: item_results g rest (snd (g t w))
  end.

End Methods.

(** "The call returns a failure result whenever any item failed": from the
    results of the items to the result of the call. *)
Definition reports_any_failure (results : list error) (result : option error)
  : Prop :=
  (exists e, In (Some e) results) -> exists e, result = Some (Some e).

(** Modelled from the spec: the interface [fe.FileExplorer], of which the
    sources hold one implementation; the methods are those package [main]
    calls.  [E] is the type of the explorer instances, [B] the world their
    backend lives in. *)
Class FileExplorer (E B : Type) : Type := {
  fe_ListDir : E -> string -> M B (list ListDirEntry * error);
  fe_Rename : E -> string -> string -> M B error;
  fe_Move : E -> list string -> string -> M B error;
  fe_Copy : E -> list string -> string -> string -> M B error;
  fe_Delete : E -> list string -> M B error;
  fe_Mkdir : E -> string -> M B error;
  fe_Chmod : E -> list string -> string -> bool -> M B error;
  fe_Close : E -> M B error
}.

#[global] Instance Local_FileExplorer {W} `{!OS W}
  : FileExplorer LocalFileExplorer W := {|
  fe_ListDir := ListDir;
  fe_Rename := Rename;
  fe_Move := Move;
  fe_Copy := Copy;
  fe_Delete := Delete;
  fe_Mkdir := Mkdir;
  fe_Chmod := Chmod;
  fe_Close := Close
|}.

End Fe.

(* ===================================================================== *)
(** * An in-memory file system behind the interface of package fe          *)
(* ===================================================================== *)

(** The tree of a Unix file system without links, with the behaviour of
    Go's [os] package on it.  What it leaves out: symbolic and hard links,
    groups, and the access checks by permission bits (the process may
    search, read and write everywhere; [chmod] alone checks ownership).
    "." and ".." are resolved lexically.  Every call of package [fe] that
    takes a path is recorded in the world's [log]. *)

Module MemFS.
Import Go Fe.

Inductive node : Set :=
| RegFile (mode uid mtime : Z) (data : string)
| Directory (mode uid mtime : Z) (entries : forest)
with forest : Set :=
| NoEntry
| Entry (name : string) (n : node) (rest : forest).

Inductive call : Set :=
| CallOpen (path : string)
| CallCreate (path : string)
| CallStat (path : string)
| CallMkdir (path : string) (mode : Z)
| CallRename (oldpath newpath : string)
| CallRemoveAll (path : string)
| CallChmod (path : string) (mode : Z)
| CallReadDir (path : string)
| CallWalk (root : string).

Record world : Set := mkWorld {
  root : node;          (* the directory "/" *)
  cwd : string;         (* working directory, an absolute path *)
  euid : Z;             (* effective user id of the process *)
  umask : Z;
  clock : Z;            (* the time stamped on what is created *)
  log : list call
}.

Definition logged (c : call) (w : world) : world :=
  mkWorld (root w) (cwd w) (euid w) (umask w) (clock w) (log w ++ [c]).

Definition with_root (r : node) (w : world) : world :=
  mkWorld r (cwd w) (euid w) (umask w) (clock w) (log w).

(** ** Directories *)

Fixpoint find (name : string) (es : forest) : option node :=
  match es with
  | NoEntry => None
  | Entry n x rest => if String.eqb n name then Some x else find name rest
  end.

Fixpoint remove (name : string) (es : forest) : forest :=
  match es with
  | NoEntry => NoEntry
  | Entry n x rest =>
      if String.eqb n name then rest else Entry n x (remove name rest)
  end.

(** Sets the entry [name], keeping the names in order. *)
Fixpoint put (name : string) (x : node) (es : forest) : forest :=
  match es with
  | NoEntry => Entry name x NoEntry
  | Entry n y rest =>
      if String.eqb n name then Entry name x rest
      else if String.ltb name n then Entry name x es
      else Entry n y (put name x rest)
  end.

Definition is_dir (n : node) : bool :=
  match n with Directory _ _ _ _ => true | RegFile _ _ _ _ => false end.

(** ** Paths *)

(** The names from "/" down to the file a path denotes; [None] for the
    empty path. *)
Definition resolve (w : world) (path : string) : option (list string) :=
  if String.eqb path "" then None
  else if rooted path then Some (clean_elems path)
  else Some (clean_elems (cwd w +:+ "/" +:+ path)).

Fixpoint lookup_node (names : list string) (n : node) : node + Errno :=
  match names with
  | [] => inl n
  | name :: rest =>
      match n with
      | RegFile _ _ _ _ => inr ENOTDIR
      | Directory _ _ _ es =>
          match find name es with
          | Some x => lookup_node rest x
          | None => inr ENOENT
          end
      end
  end.

(** Rewrites the directory reached by [names] with [f]. *)
Fixpoint in_dir (names : list string) (f : forest -> forest + Errno)
  (n : node) : node + Errno :=
  match n with
  | RegFile _ _ _ _ => inr ENOTDIR
  | Directory m u t es =>
      match names with
      | [] =>
          match f es with
          | inl es' => inl (Directory m u t es')
          | inr e => inr e
          end
      | name :: rest =>
          match find name es with
          | None => inr ENOENT
          | Some x =>
              match in_dir rest f x with
              | inl x' => inl (Directory m u t (put name x' es))
              | inr e => inr e
              end
          end
      end
  end.

(** Rewrites the file reached by [names] with [f]. *)
Definition at_node (names : list string) (f : node -> node + Errno)
  (r : node) : node + Errno :=
  match rev names with
  | [] => f r
  | name :: parent =>
      in_dir (rev parent)
        (fun es =>
           match find name es with
           | None => inr ENOENT
           | Some x =>
               match f x with
               | inl x' => inl (put name x' es)
               | inr e => inr e
               end
           end) r
  end.

Definition lookup (w : world) (path : string) : node + Errno :=
  match resolve w path with
  | None => inr ENOENT
  | Some names => lookup_node names (root w)
  end.

(** The last element of a path, as [os.Stat] names the file. *)
Definition basename (path : string) : string :=
  match filter (fun e => negb (String.eqb e "")) (rev (split_slash path ""))
  with
  | [] => "/"
  | e :: _ => e
  end.

(** ** File attributes *)

Definition perm_bits (n : node) : Z :=
  match n with RegFile m _ _ _ => m | Directory m _ _ _ => m end.

Definition owner (n : node) : Z :=
  match n with RegFile _ u _ _ => u | Directory _ u _ _ => u end.

(** The [os.FileMode] of a file from the mode bits the kernel keeps. *)
Definition go_mode (n : node) : Z :=
  let m := perm_bits n in
  Z.lor (Z.land m 511)
    (Z.lor (if is_dir n then ModeDir else 0)
       (Z.lor (if Z.testbit m 11 then ModeSetuid else 0)
          (Z.lor (if Z.testbit m 10 then ModeSetgid else 0)
                 (if Z.testbit m 9 then ModeSticky else 0)))).

Definition file_size (n : node) : Z :=
  match n with
  | RegFile _ _ _ data => Z.of_nat (String.length data)
  | Directory _ _ _ _ => 4096
  end.

Definition info_of (name : string) (n : node) : FileInfo :=
  {| Name := name;
     Size := file_size n;
     Mode := go_mode n;
     ModTime := match n with
                | RegFile _ _ t _ => t
                | Directory _ _ t _ => t
                end |}.

Fixpoint infos (es : forest) : list FileInfo :=
  match es with
  | NoEntry => []
  | Entry name x rest => info_of name x :: infos rest
  end.

Definition set_mode (m : Z) (n : node) : node :=
  match n with
  | RegFile _ u t d => RegFile m u t d
  | Directory _ u t es => Directory m u t es
  end.

Definition set_data (t : Z) (d : string) (n : node) : node + Errno :=
  match n with
  | RegFile m u _ _ => inl (RegFile m u t d)
  | Directory _ _ _ _ => inr EISDIR
  end.

(** ** The calls of the [os] package *)

Definition stat_as (op path : string) (w : world) : FileInfo + GoError :=
  match lookup w path with
  | inl n => inl (info_of (basename path) n)
  | inr e => inr (PathError op path e)
  end.

Definition fs_Stat (path : string) (w : world) : (FileInfo + GoError) * world :=
  (stat_as "stat" path w, logged (CallStat path) w).

(** An open file: the name it was opened under and where it is. *)
Definition handle : Set := string * list string.

Definition fs_Open (path : string) (w : world) : (handle + GoError) * world :=
  let w' := logged (CallOpen path) w in
  match resolve w path with
  | None => (inr (PathError "open" path ENOENT), w')
  | Some names =>
      match lookup_node names (root w) with
      | inl _ => (inl (path, names), w')
      | inr e => (inr (PathError "open" path e), w')
      end
  end.

(** The parent directory and the name of a file, [None] for "/". *)
Definition parent_and_name (names : list string)
  : option (list string * string) :=
  match rev names with
  | [] => None
  | name :: parent => Some (rev parent, name)
  end.

(** [os.Create]: OpenFile(name, O_RDWR|O_CREATE|O_TRUNC, 0666). *)
Definition create_in (w : world) (name : string) (es : forest)
  : forest + Errno :=
  match find name es with
  | None =>
      inl (put name (RegFile (Z.ldiff 438 (umask w)) (euid w) (clock w) "") es)
  | Some (RegFile m u _ _) => inl (put name (RegFile m u (clock w) "") es)
  | Some (Directory _ _ _ _) => inr EISDIR
  end.

Definition fs_Create (path : string) (w : world)
  : (handle + GoError) * world :=
  let w' := logged (CallCreate path) w in
  let fail e := (inr (PathError "open" path e), w') in
  match resolve w path with
  | None => fail ENOENT
  | Some names =>
      match parent_and_name names with
      | None => fail EISDIR
      | Some (parent, name) =>
          match in_dir parent (create_in w name) (root w) with
          | inl r' => (inl (path, names), with_root r' w')
          | inr e => fail e
          end
      end
  end.

Definition fs_Close (f : handle) (w : world) : error * world := (nil, w).

Definition write_to (f : handle) (data : string) (w : world)
  : error * world :=
  match at_node (snd f) (set_data (clock w) data) (root w) with
  | inl r' => (nil, with_root r' w)
  | inr e => (Some (PathError "write" (fst f) e), w)
  end.

Definition fs_Copy (dst src : handle) (w : world) : error * world :=
  match lookup_node (snd src) (root w) with
  | inl (RegFile _ _ _ data) => write_to dst data w
  | inl (Directory _ _ _ _) => (Some (PathError "read" (fst src) EISDIR), w)
  | inr e => (Some (PathError "read" (fst src) e), w)
  end.

Definition mkdir_in (w : world) (name : string) (mode : Z) (es : forest)
  : forest + Errno :=
  match find name es with
  | Some _ => inr EEXIST
  | None =>
      inl (put name
             (Directory (Z.ldiff (syscallMode mode) (umask w)) (euid w)
                        (clock w) NoEntry) es)
  end.

Definition fs_Mkdir (path : string) (mode : Z) (w : world) : error * world :=
  let w' := logged (CallMkdir path mode) w in
  let fail e := (Some (PathError "mkdir" path e), w') in
  match resolve w path with
  | None => fail ENOENT
  | Some names =>
      match parent_and_name names with
      | None => fail EEXIST
      | Some (parent, name) =>
          match in_dir parent (mkdir_in w name mode) (root w) with
          | inl r' => (nil, with_root r' w')
          | inr e => fail e
          end
      end
  end.

(** [chmod(2)]: only the owner and the superuser may change the mode. *)
Definition chmod_node (w : world) (mode : Z) (n : node) : node + Errno :=
  if (euid w =? 0) || (euid w =? owner n)
  then inl (set_mode (syscallMode mode) n)
  else inr EPERM.

Definition fs_Chmod (path : string) (mode : Z) (w : world) : error * world :=
  let w' := logged (CallChmod path mode) w in
  let fail e := (Some (PathError "chmod" path e), w') in
  match resolve w path with
  | None => fail ENOENT
  | Some names =>
      match at_node names (chmod_node w mode) (root w) with
      | inl r' => (nil, with_root r' w')
      | inr e => fail e
      end
  end.

Definition has_suffix (suf s : string) : bool :=
  let n := String.length s in
  let k := String.length suf in
  (k <=? n)%nat && String.eqb (substring (n - k) k s) suf.

Definition endsWithDot (path : string) : bool :=
  String.eqb path "." || has_suffix "/." path.

(** [os.RemoveAll]: nil for the empty path and for a path that does not
    exist; the rmdir of "." is refused; "/" is emptied and then cannot be
    removed. *)
Definition fs_RemoveAll (path : string) (w : world) : error * world :=
  let w' := logged (CallRemoveAll path) w in
  match resolve w path with
  | None => (nil, w')
  | Some names =>
      if endsWithDot path
      then (Some (PathError "RemoveAll" path EINVAL), w')
      else
        match parent_and_name names with
        | None =>
            (Some (PathError "unlinkat" path EBUSY),
             with_root (match root w' with
                        | Directory m u t _ => Directory m u t NoEntry
                        | r => r
                        end) w')
        | Some (parent, name) =>
            match in_dir parent (fun es => inl (remove name es)) (root w) with
            | inl r' => (nil, with_root r' w')
            | inr ENOENT => (nil, w')
            | inr e => (Some (PathError "unlinkat" path e), w')
            end
        end
  end.

Fixpoint is_prefix (xs ys : list string) : bool :=
  match xs, ys with
  | [], _ => true
  | x :: xs', y :: ys' => String.eqb x y && is_prefix xs' ys'
  | _ :: _, [] => false
  end.

Definition same_names (xs ys : list string) : bool :=
  is_prefix xs ys && is_prefix ys xs.

(** [rename(2)] on resolved paths. *)
Definition sys_rename (old new : list string) (r : node) : node + Errno :=
  match lookup_node old r with
  | inr e => inr e
  | inl x =>
      if same_names old new then inl r
      else
        match parent_and_name old, parent_and_name new with
        | None, _ | _, None => inr EBUSY
        | Some (oparent, oname), Some (nparent, nname) =>
            if is_dir x && is_prefix old new then inr EINVAL
            else
              match lookup_node new r with
              | inr ENOTDIR => inr ENOTDIR
              | inl (Directory _ _ _ NoEntry) =>
                  if is_dir x then
                    match in_dir oparent (fun es => inl (remove oname es)) r
                    with
                    | inl r1 => in_dir nparent (fun es => inl (put nname x es)) r1
                    | inr e => inr e
                    end
                  else inr EISDIR
              | inl (Directory _ _ _ _) =>
                  if is_dir x then inr ENOTEMPTY else inr EISDIR
              | inl (RegFile _ _ _ _) =>
                  if is_dir x then inr ENOTDIR
                  else
                    match in_dir oparent (fun es => inl (remove oname es)) r
                    with
                    | inl r1 => in_dir nparent (fun es => inl (put nname x es)) r1
                    | inr e => inr e
                    end
              | inr _ =>
                  match in_dir oparent (fun es => inl (remove oname es)) r
                  with
                  | inl r1 => in_dir nparent (fun es => inl (put nname x es)) r1
                  | inr e => inr e
                  end
              end
        end
  end.

(** [os.Rename]: a new name that is an existing directory is refused
    before the kernel is asked, unless it is the old file itself. *)
Definition fs_Rename (old new : string) (w : world) : error * world :=
  let w' := logged (CallRename old new) w in
  let fail e := (Some (LinkError "rename" old new e), w') in
  let kernel :=
    match resolve w old, resolve w new with
    | Some o, Some n =>
        match sys_rename o n (root w) with
        | inl r' => (nil, with_root r' w')
        | inr e => fail e
        end
    | _, _ => fail ENOENT
    end in
  match lookup w new with
  | inl nn =>
      if is_dir nn then
        match lookup w old with
        | inr e => fail e
        | inl _ =>
            let same := match resolve w old, resolve w new with
                        | Some o, Some n => same_names o n
                        | _, _ => false
                        end in
            if String.eqb new old || negb same then fail EEXIST else kernel
        end
      else kernel
  | inr _ => kernel
  end.

Definition fs_ReadDir (path : string) (w : world)
  : (list FileInfo + GoError) * world :=
  let w' := logged (CallReadDir path) w in
  match lookup w path with
  | inl (Directory _ _ _ es) => (inl (infos es), w')
  | inl (RegFile _ _ _ _) => (inr (PathError "readdirent" path ENOTDIR), w')
  | inr e => (inr (PathError "open" path e), w')
  end.

(** The paths [filepath.Walk] hands to its function when it walks the tree
    [n] from [path]: the path itself and, below a directory, what is walked
    from the path joined with the name of each entry, in the order of the
    entries. *)
Fixpoint walk_paths (path : string) (n : node) : list string :=
  path :: match n with
          | RegFile _ _ _ _ => []
          | Directory _ _ _ es => walk_paths_names path es
          end
with walk_paths_names (path : string) (es : forest) : list string :=
  match es with
  | NoEntry => []
  | Entry name x rest =>
      walk_paths (filepath_Join [path; name]) x ++ walk_paths_names path rest
  end.

(** [p] is walked from [rootpath] in the tree of [w]: nothing is when
    [rootpath] is not there. *)
Definition walked (w : world) (rootpath p : string) : Prop :=
  match lookup w rootpath with
  | inl n => In p (walk_paths rootpath n)
  | inr _ => False
  end.

(** The names in a directory, for reading a tree back. *)
Definition ReadDir_names (w : world) (path : string) : list string :=
  match lookup w path with
  | inl (Directory _ _ _ es) => map Name (infos es)
  | _ => []
  end.

(** ** filepath.Walk

    [walk] follows Go's: a file is handed to the function; a directory is
    handed to it and then entered, each name lstat-ed when its turn comes.
    An error from the function ends the walk, except [SkipDir], which skips
    the directory it was returned for.  The names of a directory are those
    of the tree when the walk began (the functions of package [fe] change
    modes, never names). *)

Definition SkipDir : GoError := errors_New "skip this directory".

Definition is_SkipDir (e : GoError) : bool := bool_decide (e = SkipDir).

Fixpoint walk (path : string) (n : node) (info : FileInfo)
  (walkFn : WalkFunc world) (w : world) {struct n} : error * world :=
  if negb (IsDir (Mode info)) then walkFn path (Some info) nil w
  else
    let (err1, w1) := walkFn path (Some info) nil w in
    match err1 with
    | Some _ => (err1, w1)
    | None =>
        match n with
        | RegFile _ _ _ _ => (nil, w1)
        | Directory _ _ _ es => walk_names path es walkFn w1
        end
    end
with walk_names (path : string) (es : forest) (walkFn : WalkFunc world)
  (w : world) {struct es} : error * world :=
  match es with
  | NoEntry => (nil, w)
  | Entry name x rest =>
      let filename := filepath_Join [path; name] in
      match stat_as "lstat" filename w with
      | inr e =>
          let (err, w') := walkFn filename None (Some e) w in
          match err with
          | Some e' =>
              if is_SkipDir e' then walk_names path rest walkFn w'
              else (err, w')
          | None => walk_names path rest walkFn w'
          end
      | inl fileInfo =>
          let (err, w') := walk filename x fileInfo walkFn w in
          match err with
          | Some e' =>
              if negb (IsDir (Mode fileInfo)) || negb (is_SkipDir e')
              then (err, w')
              else walk_names path rest walkFn w'
          | None => walk_names path rest walkFn w'
          end
      end
  end.

Definition fs_Walk (rootpath : string) (walkFn : WalkFunc world) (w : world)
  : error * world :=
  let w0 := logged (CallWalk rootpath) w in
  let (err, w') :=
    match stat_as "lstat" rootpath w0, lookup w0 rootpath with
    | inl info, inl n => walk rootpath n info walkFn w0
    | inr e, _ => walkFn rootpath None (Some e) w0
    | inl _, inr e =>
        walkFn rootpath None (Some (PathError "lstat" rootpath e)) w0
    end in
  match err with
  | Some e => if is_SkipDir e then (nil, w') else (err, w')
  | None => (nil, w')
  end.

(** ** Reading a file as text

    The ISO8859_1 decoder turns each byte into the UTF-8 encoding of the
    code point of the same number; the scanner then yields the lines, without
    the newline and without one carriage return before it, and stops at a line
    that does not fit its buffer of 64 KiB. *)

Definition decode_byte (c : ascii) : string :=
  let n := byte_of c in
  if n <? 128 then String c EmptyString
  else String (ascii_of_N (Z.to_N (Z.lor 192 (Z.shiftr n 6))))
         (String (ascii_of_N (Z.to_N (Z.lor 128 (Z.land n 63)))) EmptyString).

Fixpoint decode_latin1 (s : string) : string :=
  match s with
  | EmptyString => EmptyString
  | String c rest => decode_byte c +:+ decode_latin1 rest
  end.

Definition MaxScanTokenSize : Z := 64 * 1024.

Definition dropCR (line : string) : string :=
  if has_suffix (String (ascii_of_nat 13) EmptyString) line
  then substring 0 (String.length line - 1) line
  else line.

(** The tokens of [bufio.ScanLines] over [s]; [cur] is the line being read
    (reversed, the bytes as a list) and [len] its length. *)
Fixpoint scan_tokens (s : string) (cur : list ascii) (len : Z)
  : list string :=
  match s with
  | EmptyString =>
      match cur with
      | [] => []
      | _ =>
          if len >=? MaxScanTokenSize then []
          else [dropCR (string_of_list_ascii (rev_append cur []))]
      end
  | String c rest =>
      if Ascii.eqb c (ascii_of_nat 10) then
        if len >=? MaxScanTokenSize then []
        else dropCR (string_of_list_ascii (rev_append cur []))
               :: scan_tokens rest [] 0
      else scan_tokens rest (c :: cur) (len + 1)
  end.

Definition fs_ScanLines (f : handle) (w : world) : list string * world :=
  match lookup_node (snd f) (root w) with
  | inl (RegFile _ _ _ data) => (scan_tokens (decode_latin1 data) [] 0, w)
  | _ => ([], w)
  end.

(** ** Numbers and dates as text *)

Definition fs_Itoa (n : Z) : string :=
  if n =? 0 then "0" else NilZero.string_of_int (Z.to_int n).

Definition pad2 (n : Z) : string :=
  if n <? 10 then "0" +:+ fs_Itoa n else fs_Itoa n.

Definition pad4 (n : Z) : string :=
  if n <? 10 then "000" +:+ fs_Itoa n
  else if n <? 100 then "00" +:+ fs_Itoa n
  else if n <? 1000 then "0" +:+ fs_Itoa n
  else fs_Itoa n.

(** Year, month and day of a day number counted from 1970-01-01. *)
Definition civil (days : Z) : Z * Z * Z :=
  let z := days + 719468 in
  let era := z / 146097 in
  let doe := z - era * 146097 in
  let yoe := (doe - doe / 1460 + doe / 36524 - doe / 146096) / 365 in
  let doy := doe - (365 * yoe + yoe / 4 - yoe / 100) in
  let mp := (5 * doy + 2) / 153 in
  let d := doy - (153 * mp + 2) / 5 + 1 in
  let m := if mp <? 10 then mp + 3 else mp - 9 in
  let y := yoe + era * 400 + (if m <=? 2 then 1 else 0) in
  (y, m, d).

(** [t.Format] for the one layout the sources use, in the zone UTC; any
    other layout is returned as it is. *)
Definition fs_Format (layout : string) (t : Z) : string :=
  if String.eqb layout "2006-01-02 15:04:05" then
    let '(y, m, d) := civil (t / 86400) in
    let s := t mod 86400 in
    pad4 y +:+ "-" +:+ pad2 m +:+ "-" +:+ pad2 d +:+ " " +:+
    pad2 (s / 3600) +:+ ":" +:+ pad2 (s mod 3600 / 60) +:+ ":" +:+
    pad2 (s mod 60)
  else layout.

#[global] Instance MemFS_OS : OS world := {|
  File := handle;
  os_Open := fs_Open;
  os_Create := fs_Create;
  file_Close := fs_Close;
  io_Copy := fs_Copy;
  io_Copy_string := write_to;
  scan_lines := fs_ScanLines;
  os_Stat := fs_Stat;
  os_Mkdir := fs_Mkdir;
  os_Rename := fs_Rename;
  os_RemoveAll := fs_RemoveAll;
  os_Chmod := fs_Chmod;
  ioutil_ReadDir := fs_ReadDir;
  filepath_Walk := fs_Walk;
  Fe.Itoa := fs_Itoa;
  time_Format := fs_Format
|}.

(** ** The calls of [CopyFile], [Copy] and [GetContent]

    What these log, read off their bodies: each call is made when the one
    before it went through. *)

Definition CopyFile_calls (source dest : string) (w : world) : list call :=
  CallOpen source
  :: match fs_Open source w with
     | (inr _, _) => []
     | (inl sf, w1) =>
         CallCreate dest
         :: match fs_Create dest w1 with
            | (inr _, _) => []
            | (inl df, w2) =>
                match fst (fs_Copy df sf w2) with
                | Some _ => []
                | None => [CallStat source]
                end
            end
     end.

Fixpoint Copy_calls (fe : LocalFileExplorer) (items : list string)
  (newPath singleFilename : string) (w : world) : list call :=
  match items with
  | [] => []
  | t :: rest =>
      let source := filepath_Join [RelativePath fe; t] in
      let dest := filepath_Join [RelativePath fe; newPath; singleFilename] in
      CopyFile_calls source dest w
      ++ match CopyFile source dest w with
         | Ret _ w' => Copy_calls fe rest newPath singleFilename w'
         | Panic _ => []
         end
  end.

Definition GetContent_calls (fe : LocalFileExplorer) (item : string)
  (w : world) : list call :=
  let realPath := filepath_Join [RelativePath fe; item] in
  CallStat realPath
  :: match stat_as "stat" realPath w with
     | inl fi => if Size fi >? 1024 * 1024 then [] else [CallOpen realPath]
     | inr _ => []
     end.
(** ** A small tree to run the explorer on

    /srv/data is the explorer's directory: a.txt, b (a directory holding
    c.txt, owned by the superuser), dir (an empty directory) and present.
    /a.txt lies outside it.  The process runs as user 1000, in "/" for [w0]
    and in /srv/data for [w_data]. *)

Definition tree : node :=
  Directory 493 0 0
    (Entry "a.txt" (RegFile 420 1000 0 "outside")
    (Entry "srv" (Directory 493 0 0
       (Entry "data" (Directory 493 1000 0
          (Entry "a.txt" (RegFile 420 1000 1700000000 "hello")
          (Entry "b" (Directory 493 1000 0
             (Entry "c.txt" (RegFile 420 0 0 "root's") NoEntry))
          (Entry "dir" (Directory 493 1000 0 NoEntry)
          (Entry "present" (RegFile 420 1000 0 "here")
           NoEntry)))))
        NoEntry))
     NoEntry)).

Definition w0 : world :=
  {| root := tree; cwd := "/"; euid := 1000; umask := 18; clock := 1;
     log := [] |}.

Definition w_data : world :=
  {| root := tree; cwd := "/srv/data"; euid := 1000; umask := 18; clock := 1;
     log := [] |}.

Definition data_fe : LocalFileExplorer := NewLocalFileExplorer "/srv/data".

(** A world whose only file, /srv/data/big, holds [size] bytes. *)
Fixpoint filled (n : nat) (c : ascii) : string :=
  match n with
  | O => EmptyString
  | S k => String c (filled k c)
  end.

Definition w_big (size : Z) : world :=
  {| root :=
       Directory 493 0 0
         (Entry "srv" (Directory 493 0 0
            (Entry "data" (Directory 493 1000 0
               (Entry "big" (RegFile 420 1000 0 (filled (Z.to_nat size) "x"))
                NoEntry))
             NoEntry))
          NoEntry);
     cwd := "/"; euid := 1000; umask := 18; clock := 1; log := [] |}.

(** ** Text that goes through [Edit] and [GetContent] *)

Definition CR : ascii := ascii_of_nat 13.

Fixpoint last_byte (s : string) : option ascii :=
  match s with
  | EmptyString => None
  | String c EmptyString => Some c
  | String _ rest => last_byte rest
  end.

(** Text that [Edit] and [GetContent] carry unchanged: bytes below 128, no
    carriage return, shorter than the scanner's buffer, and no newline at
    the end. *)
Definition plain_text (s : string) : bool :=
  forallb (fun c => (byte_of c <? 128) && negb (Ascii.eqb c CR))
          (list_ascii_of_string s)
  && (Z.of_nat (String.length s) <? MaxScanTokenSize)
  && negb (match last_byte s with
           | Some c => Ascii.eqb c (ascii_of_nat 10)
           | None => false
           end).

(** What [GetContent] makes of a file's bytes. *)
Definition read_back (data : string) : string :=
  strings_Join (scan_tokens (decode_latin1 data) [] 0) LF.

End MemFS.

(* ===================================================================== *)
(** * Package main: the dispatcher and the session binder                  *)
(* ===================================================================== *)

Module Main.
Import Go Fe.

(** Modelled from the spec: the request and response types of package
    [models], which the sources use and do not declare.  [GenericReq] is the
    spec's ActionRequest with the fields [apiHandler] reads;
    [GenericRespBody] is built positionally in the sources, from a bool and a
    string: the envelope's [success] and [message]. *)
Record GenericReq : Set := mkReq {
  Action : string;
  Path : string;
  Item : string;
  NewItemPath : string;
  Items : list string;
  NewPath : string;
  SingleFilename : string;
  PermsCode : string;
  Recursive : bool
}.

Record GenericRespBody : Set := mkBody { Success : bool; Message : string }.

Inductive payload : Set :=
| GenericResp (Result : GenericRespBody)
| ListDirResp (Result : list ListDirEntry).

(** What a handler writes to the client. *)
Inductive Response : Set :=
| JSON (status : Z) (body : payload)
| Redirect (location : string).

Definition DEFAULT_API_ERROR_RESPONSE : payload :=
  GenericResp (mkBody false "Not Supported").

Record SessionInfo (E : Type) : Type := mkSessionInfo {
  User : string;
  Password : string;
  FileExplorer : option E;     (* the interface value, nil or an instance *)
  Uid : string
}.
Arguments mkSessionInfo {E} _ _ _ _.
Arguments User {E} _.
Arguments Password {E} _.
Arguments FileExplorer {E} _.
Arguments Uid {E} _.

(** ** The action dispatcher *)

Section Dispatcher.
Context {E B : Type} `{!Fe.FileExplorer E B}.

(** The text of an error value, [err.Error()]. *)
Variable Error : GoError -> string.

(** The handler runs against the backend of the explorer and the responses
    written to the request's context so far. *)
Record handling : Type := mkHandling { backend : B; written : list Response }.

Definition c_JSON (code : Z) (obj : payload) : M handling unit :=
  fun h => Ret () (mkHandling (backend h) (written h ++ [JSON code obj])).

Definition ApiErrorResponse (code : Z) (err : GoError) : M handling unit :=
  c_JSON code (GenericResp (mkBody false (Error err))).

Definition ApiSuccessResponse (message : string) : M handling unit :=
  c_JSON 200 (GenericResp (mkBody true message)).

(** A method call on [s.FileExplorer]: on the nil interface it panics. *)
Definition call {A} (s : SessionInfo E) (method : E -> M B A)
  : M handling A :=
  fun h =>
    match FileExplorer s with
    | None => Panic h
    | Some e =>
        match method e (backend h) with
        | Ret a b => Ret a (mkHandling b (written h))
        | Panic b => Panic (mkHandling b (written h))
        end
    end.

Definition respond (err : error) : M handling unit :=
  match err with
  | None => ApiSuccessResponse ""
  | Some e => ApiErrorResponse 400 e
  end.

Definition apiHandler (req : GenericReq) (s : SessionInfo E)
  : M handling unit :=
  if String.eqb (Action req) "list" then
    r ← call s (fun e => fe_ListDir e (Path req));
    match snd r with
    | None => c_JSON 200 (ListDirResp (fst r))
    | Some e => ApiErrorResponse 400 e
    end
  else if String.eqb (Action req) "rename" then
    err ← call s (fun e => fe_Rename e (Item req) (NewItemPath req));
    respond err
  else if String.eqb (Action req) "move" then
    err ← call s (fun e => fe_Move e (Items req) (NewPath req));
    respond err
  else if String.eqb (Action req) "copy" then
    err ← call s (fun e =>
                    fe_Copy e (Items req) (NewPath req) (SingleFilename req));
    respond err
  else if String.eqb (Action req) "remove" then
    err ← call s (fun e => fe_Delete e (Items req));
    respond err
  else if String.eqb (Action req) "savefile" then
    c_JSON 200 DEFAULT_API_ERROR_RESPONSE
  else if String.eqb (Action req) "edit" then
    c_JSON 200 DEFAULT_API_ERROR_RESPONSE
  else if String.eqb (Action req) "createFolder" then
    err ← call s (fun e => fe_Mkdir e (NewPath req));
    respond err
  else if String.eqb (Action req) "changePermissions" then
    err ← call s (fun e =>
                    fe_Chmod e (Items req) (PermsCode req) (Recursive req));
    respond err
  else if String.eqb (Action req) "compress" then
    c_JSON 200 DEFAULT_API_ERROR_RESPONSE
  else if String.eqb (Action req) "extract" then
    c_JSON 200 DEFAULT_API_ERROR_RESPONSE
  else mret ().

End Dispatcher.

(** The actions [apiHandler] has a branch for. *)
Definition recognized (action : string) : bool :=
  existsb (String.eqb action)
    ["list"; "rename"; "move"; "copy"; "remove"; "savefile"; "edit";
     "createFolder"; "changePermissions"; "compress"; "extract"].

(** The actions whose branch calls a method of the explorer. *)
Definition calls_explorer (action : string) : bool :=
  existsb (String.eqb action)
    ["list"; "rename"; "move"; "copy"; "remove"; "createFolder";
     "changePermissions"].

Definition IsApiPath (url : string) : bool :=
  String.prefix "/api/" url || String.prefix "/bridges/php/handler.php" url.

(** ** The session binder *)

(** Modelled from the spec: the remote explorer, [fe.NewSSHFileExplorer]
    with its [Init] and [Close], which the sources call and do not hold.
    An instance is the pointer the constructor returns, here its address:
    each call of the constructor allocates the next one.  [Init] opens the
    connection and fails when the backend refuses the user and password;
    [Close] releases it. *)
Definition explorer : Set := nat.

Inductive event : Set :=
| Connected (e : explorer) (user : string)    (* Init returned nil *)
| Refused (e : explorer) (user : string)      (* Init returned an error *)
| Closed (e : explorer)                       (* Close was called *)
| CachePut (key : string)
| CacheDelete (key : string).

#[global] Instance event_eq_dec : EqDecision event.
Proof. solve_decision. Defined.

(** A value of [c.Data]. *)
Inductive value : Type :=
| VString (s : string)
| VFlash (f : gmap string string).

Record Request : Type := mkRequest {
  URL_Path : string;
  Method : string;
  Query : string -> string
}.

(** The [*macaron.Context] of one request: the request, [c.Data], the value
    mapped for the type [SessionInfo], what was written, the cookies set. *)
Record Context : Type := mkContext {
  Req : Request;
  Data : gmap string value;
  Mapped : option (SessionInfo explorer);
  Written : list Response;
  Cookies : list (string * string)
}.

(** What [Contexter] runs against: the context [c], the [cache], the
    [session] store of the request's cookie, the flash [f]; the backend's
    answer to a user and password, the next address of the heap and the
    calls made so far. *)
Record state : Type := mkState {
  c : Context;
  cache : gmap string (SessionInfo explorer);
  session : gmap string string;
  f : gmap string string;
  answers : string -> string -> error;
  next : explorer;
  trace : list event
}.

Definition on_c (g : Context -> Context) : M state unit :=
  fun s => Ret () (mkState (g (c s)) (cache s) (session s) (f s)
                           (answers s) (next s) (trace s)).

Definition c_Data_set (key : string) (v : value) : M state unit :=
  on_c (fun c => mkContext (Req c) (<[key := v]> (Data c)) (Mapped c)
                           (Written c) (Cookies c)).

Definition c_Map (v : SessionInfo explorer) : M state unit :=
  on_c (fun c => mkContext (Req c) (Data c) (Some v) (Written c) (Cookies c)).

Definition c_write (r : Response) : M state unit :=
  on_c (fun c => mkContext (Req c) (Data c) (Mapped c) (Written c ++ [r])
                           (Cookies c)).

Definition c_Redirect (location : string) : M state unit :=
  c_write (Redirect location).

Definition c_SetCookie (name v : string) : M state unit :=
  on_c (fun c => mkContext (Req c) (Data c) (Mapped c) (Written c)
                           (Cookies c ++ [(name, v)])).

Definition cache_Get (key : string)
  : M state (option (SessionInfo explorer)) :=
  fun s => Ret (cache s !! key) s.

Definition cache_Put (key : string) (v : SessionInfo explorer)
  : M state unit :=
  fun s => Ret () (mkState (c s) (<[key := v]> (cache s)) (session s) (f s)
                           (answers s) (next s) (trace s ++ [CachePut key])).

Definition cache_Delete (key : string) : M state unit :=
  fun s => Ret () (mkState (c s) (delete key (cache s)) (session s) (f s)
                           (answers s) (next s)
                           (trace s ++ [CacheDelete key])).

Definition session_Get (key : string) : M state (option string) :=
  fun s => Ret (session s !! key) s.

Definition session_Set (key v : string) : M state unit :=
  fun s => Ret () (mkState (c s) (cache s) (<[key := v]> (session s)) (f s)
                           (answers s) (next s) (trace s)).

Definition session_Delete (key : string) : M state unit :=
  fun s => Ret () (mkState (c s) (cache s) (delete key (session s)) (f s)
                           (answers s) (next s) (trace s)).

Definition f_Set (key v : string) : M state unit :=
  fun s => Ret () (mkState (c s) (cache s) (session s) (<[key := v]> (f s))
                           (answers s) (next s) (trace s)).

Definition get {A} (proj : state -> A) : M state A := fun s => Ret (proj s) s.

(** [fe.NewSSHFileExplorer(...)] followed by [fe.Init()]. *)
Definition BackendConnect (username password : string)
  : M state (option explorer * error) :=
  fun s =>
    let fe := next s in
    let err := answers s username password in
    let after ev :=
      mkState (c s) (cache s) (session s) (f s) (answers s) (S (next s))
              (trace s ++ [ev]) in
    match err with
    | None => Ret (Some fe, nil) (after (Connected fe username))
    | Some _ => Ret (None, err) (after (Refused fe username))
    end.

Definition explorer_Close (e : explorer) : M state error :=
  fun s => Ret nil (mkState (c s) (cache s) (session s) (f s) (answers s)
                            (next s) (trace s ++ [Closed e])).

Section Binder.
Variable Error : GoError -> string.

Definition ApiError (code : Z) (err : GoError) : M state unit :=
  c_write (JSON code (GenericResp (mkBody false (Error err)))).

Definition AuthError (err : GoError) : M state unit :=
  _ ← f_Set "ErrorMsg" (Error err);
  fl ← get f;
  _ ← c_Data_set "Flash" (VFlash fl);
  _ ← c_Data_set "ErrorMsg" (VString (Error err));
  c_Redirect "/login".

(** The first half of [Contexter]: is the request signed, and with which
    [sessionInfo]. *)
Definition resolve_session (uid : option string)
  : M state (bool * SessionInfo explorer) :=
  let empty := mkSessionInfo "" "" None "" in
  match uid with
  | None => mret (false, empty)
  | Some uid =>
      sessionInfoObj ← cache_Get uid;
      match sessionInfoObj with
      | None => mret (false, empty)
      | Some sessionInfo =>
          if String.eqb (User sessionInfo) ""
             || String.eqb (Password sessionInfo) ""
          then mret (false, sessionInfo)
          else
            _ ← c_Data_set "User" (VString (User sessionInfo));
            _ ← c_Map sessionInfo;
            match FileExplorer sessionInfo with
            | Some _ => mret (true, sessionInfo)
            | None =>
                r ← BackendConnect (User sessionInfo) (Password sessionInfo);
                let sessionInfo :=
                  mkSessionInfo (User sessionInfo) (Password sessionInfo)
                                (fst r) (Uid sessionInfo) in
                match snd r with
                | Some err =>
                    path ← get (fun s => URL_Path (Req (c s)));
                    _ ← (if IsApiPath path then ApiError 500 err
                         else AuthError err);
                    mret (false, sessionInfo)
                | None => mret (true, sessionInfo)
                end
            end
      end
  end.

Definition Contexter : M state unit :=
  uid ← session_Get "uid";
  r ← resolve_session uid;
  let isSigned := fst r in
  let sessionInfo := snd r in
  path ← get (fun s => URL_Path (Req (c s)));
  if negb isSigned then
    if String.prefix "/login" path then
      method ← get (fun s => Method (Req (c s)));
      if String.eqb method "POST" then
        username ← get (fun s => Query (Req (c s)) "username");
        password ← get (fun s => Query (Req (c s)) "password");
        r ← BackendConnect username password;
        match snd r with
        | Some err => AuthError err
        | None =>
            let uid := username in
            let sessionInfo := mkSessionInfo username password (fst r) uid in
            _ ← cache_Put uid sessionInfo;
            _ ← session_Set "uid" uid;
            _ ← c_Data_set "User" (VString (User sessionInfo));
            _ ← c_Map sessionInfo;
            c_Redirect "/"
        end
      else mret ()
    else c_Redirect "/login"
  else
    if String.prefix "/logout" path then
      _ ← match FileExplorer sessionInfo with
          | None => panic
          | Some e => explorer_Close e
          end;
      _ ← session_Delete "uid";
      _ ← match uid with
          | None => panic
          | Some uid => cache_Delete uid
          end;
      _ ← c_SetCookie "MacaronSession" "";
      c_Redirect "/login"
    else mret ().

End Binder.

(** ** Requests, one after the other

    The server's state between requests: the cache, the session store of
    every cookie, the heap and the calls made.  A request comes with its
    cookie and with what the backend will answer while it is served. *)

Record World : Type := mkWorld {
  w_cache : gmap string (SessionInfo explorer);
  w_sessions : gmap nat (gmap string string);
  w_next : explorer;
  w_trace : list event
}.

Record Incoming : Type := mkIncoming {
  cookie : nat;
  request : Request;
  backend_answers : string -> string -> error
}.

Definition enter (i : Incoming) (w : World) : state :=
  mkState (mkContext (request i) ∅ None [] [])
          (w_cache w) (default ∅ (w_sessions w !! cookie i)) ∅
          (backend_answers i) (w_next w) (w_trace w).

Definition leave (i : Incoming) (w : World) (s : state) : World :=
  mkWorld (cache s) (<[cookie i := session s]> (w_sessions w))
          (next s) (trace s).

Definition init : World := mkWorld ∅ ∅ 0%nat [].

(** The cache drops an entry when its time is over. *)
Definition expire (key : string) (w : World) : World :=
  mkWorld (delete key (w_cache w)) (w_sessions w) (w_next w) (w_trace w).

Section Server.
Variable Error : GoError -> string.

Definition serve (i : Incoming) (w : World) : World :=
  leave i w (world_of (Contexter Error (enter i w))).

Inductive reachable : World -> Prop :=
| reach_init : reachable init
| reach_serve i w : reachable w -> reachable (serve i w)
| reach_expire key w : reachable w -> reachable (expire key w).

End Server.

(** ** What holds of the cache between requests *)

(** What one run of [Contexter] may do to the cache: nothing, put the
    record of a login whose explorer was allocated during the run, or delete
    one entry. *)
Definition cache_step (next0 next1 : explorer)
  (cache0 cache1 : gmap string (SessionInfo explorer)) : Prop :=
  (next0 <= next1)%nat
  /\ (cache1 = cache0
      \/ (exists u p e,
             (next0 <= e < next1)%nat
             /\ cache1 = <[u := mkSessionInfo u p (Some e) u]> cache0)
      \/ (exists key, cache1 = delete key cache0)).

(** Every cached explorer has been allocated; every record sits under its
    user's name; the records of two keys hold different explorers. *)
Definition allocated (w : World) : Prop :=
  forall key si e,
    w_cache w !! key = Some si -> FileExplorer si = Some e ->
    (e < w_next w)%nat.

Definition keyed_by_user (w : World) : Prop :=
  forall key si, w_cache w !! key = Some si -> User si = key /\ Uid si = key.

Definition explorers_distinct (w : World) : Prop :=
  forall k1 k2 s1 s2 e1 e2,
    k1 <> k2 ->
    w_cache w !! k1 = Some s1 -> w_cache w !! k2 = Some s2 ->
    FileExplorer s1 = Some e1 -> FileExplorer s2 = Some e2 ->
    e1 <> e2.

Definition binder_inv (w : World) : Prop :=
  allocated w /\ keyed_by_user w /\ explorers_distinct w.

(** "Close is invoked on a FileExplorer before its Session record is
    discarded": every explorer bound by a record of the cache of [w] whose
    record is not in the cache of [w'] any more has been closed by then. *)
Definition closed_before_discarded (w w' : World) : Prop :=
  forall key si e,
    w_cache w !! key = Some si ->
    FileExplorer si = Some e ->
    w_cache w' !! key <> Some si ->
    In (Closed e) (w_trace w').

(** ** Requests to run the binder on *)

Definition accept_all : string -> string -> error := fun _ _ => nil.

Definition form (username password : string) : string -> string :=
  fun key =>
    if String.eqb key "username" then username
    else if String.eqb key "password" then password
    else "".

Definition login (ck : nat) (username password : string) : Incoming :=
  mkIncoming ck (mkRequest "/login" "POST" (form username password))
             accept_all.

Definition visit (ck : nat) (method path : string) : Incoming :=
  mkIncoming ck (mkRequest path method (fun _ => "")) accept_all.

Definition plain_Error : GoError -> string := fun _ => "error".

(** alice has logged in from the browser with cookie 1; then bob from the
    browser with cookie 2. *)
Definition alice_in : World := serve plain_Error (login 1 "alice" "secret") init.

(** A cache whose record for alice has no explorer, and the browser with
    cookie 1 signed in as alice. *)
Definition alice_unconnected : World :=
  mkWorld {[ "alice" := mkSessionInfo "alice" "secret" None "alice" ]}
          {[ 1%nat := {[ "uid" := "alice" ]} ]} 0%nat [].

(** ** The record a request is signed with

    What the first half of [Contexter] looks for: the cache's record under
    the session's uid, with a user and a password that are not empty. *)
Definition session_record (s : state) : option (SessionInfo explorer) :=
  match session s !! "uid" with
  | None => None
  | Some uid =>
      match cache s !! uid with
      | None => None
      | Some si =>
          if String.eqb (User si) "" || String.eqb (Password si) ""
          then None
          else Some si
      end
  end.

(** The state with another context. *)
Definition with_c (c' : Context) (s : state) : state :=
  mkState c' (cache s) (session s) (f s) (answers s) (next s) (trace s).

(** The state after the first half of [Contexter] has found the request
    signed with the record [si]: the page's User is set and the record is
    mapped. *)
Definition mapped (si : SessionInfo explorer) (s : state) : state :=
  with_c (mkContext (Req (c s))
                    (<["User" := VString (User si)]> (Data (c s)))
                    (Some si) (Written (c s)) (Cookies (c s))) s.

(** ** One run of the binder, seen from the cache and the trace *)






(** A backend that refuses everybody, and requests served while it does. *)
Definition refuse_all : string -> string -> error :=
  fun _ _ => Some (ErrorString "ssh: unable to authenticate").

Definition refused_login (ck : nat) (username password : string) : Incoming :=
  mkIncoming ck (mkRequest "/login" "POST" (form username password))
             refuse_all.

Definition refused_visit (ck : nat) (method path : string) : Incoming :=
  mkIncoming ck (mkRequest path method (fun _ => "")) refuse_all.

(** ** Sessions, browser by browser *)

(** The Session a browser's requests are served with: the record the binder
    finds through the uid of the cookie's session. *)
Definition session_of (w : World) (ck : nat)
  : option (SessionInfo explorer) :=
  session_record (enter (visit ck "GET" "/") w).

(** "No two Sessions ever hold references to the same FileExplorer
    instance", of the sessions of two browsers. *)
Definition no_two_sessions_share_an_explorer (w : World) : Prop :=
  forall c1 c2 s1 s2 e1 e2,
    c1 <> c2 ->
    session_of w c1 = Some s1 -> session_of w c2 = Some s2 ->
    FileExplorer s1 = Some e1 -> FileExplorer s2 = Some e2 ->
    e1 <> e2.

(** alice has logged in from the browser with cookie 1, and again from the
    browser with cookie 2. *)
Definition two_alices : World :=
  serve plain_Error (login 2 "alice" "secret") alice_in.


(** ** What the dispatcher may write *)

Section Answers.
Context {B : Type}.
Variable Error : GoError -> string.

(** One envelope: a listing, the empty success, the fixed "Not Supported",
    or a failure with status 400 and the error's text. *)
Definition one_answer (r : Response) : Prop :=
  (exists ls, r = JSON 200 (ListDirResp ls))
  \/ r = JSON 200 (GenericResp (mkBody true ""))
  \/ r = JSON 200 DEFAULT_API_ERROR_RESPONSE
  \/ (exists err, r = JSON 400 (GenericResp (mkBody false (Error err)))).

Definition answered_once (h h' : handling (B:=B)) : Prop :=
  exists r, written h' = written h ++ [r] /\ one_answer r.

End Answers.

End Main.

(* ===================================================================== *)
(** * The library functions and the file system on known inputs            *)
(* ===================================================================== *)

Module Checks.
Import Go Fe MemFS.

Example Clean_examples :
  map filepath_Clean
      ["" ; "/" ; "a//b/" ; "a/./b" ; "a/b/../c" ; "../a" ; "/../a" ;
       "a/.." ; "a/../.." ; "/a/b/../../.." ]
  = ["." ; "/" ; "a/b" ; "a/b" ; "a/c" ; "../a" ; "/a" ;
     "." ; ".." ; "/" ].
Proof. reflexivity. Qed.

Example Join_examples :
  map filepath_Join
      [ ["/srv"; "a"] ; [""; "a"] ; ["/srv"; ""] ; [""; ""] ; ["."; "a"] ;
        ["/srv"; "/etc/passwd"] ; ["/srv"; "../etc"] ; ["/srv"; "d"; "f"] ]
  = [ "/srv/a" ; "a" ; "/srv" ; "" ; "a" ;
      "/srv/etc/passwd" ; "/etc" ; "/srv/d/f" ].
Proof. reflexivity. Qed.

Example Atoi_examples :
  map strconv_Atoi ["755"; "-12"; "+7"; "0644"; ""; "-"; "7a5"; "0o755";
                    "9223372036854775807"; "9223372036854775808";
                    "-9223372036854775808"; "99999999999999999999x"]
  = [inl 755; inl (-12); inl 7; inl 644;
     inr (NumError "Atoi" "" ErrSyntax); inr (NumError "Atoi" "-" ErrSyntax);
     inr (NumError "Atoi" "7a5" ErrSyntax);
     inr (NumError "Atoi" "0o755" ErrSyntax);
     inl 9223372036854775807;
     inr (NumError "Atoi" "9223372036854775808" ErrRange);
     inl (-9223372036854775808);
     inr (NumError "Atoi" "99999999999999999999x" ErrRange)].
Proof. reflexivity. Qed.

Example FileMode_String_examples :
  map FileMode_String [493; 755; Z.lor ModeDir 448; 0]
  = ["-rwxr-xr-x"; "--wxrw--wx"; "drwx------"; "----------"].
Proof. reflexivity. Qed.

Example ListDir_data :
  value_of (ListDir data_fe "/" w0)
  = Some ([ mkListDirEntry "a.txt" "-rw-r--r--" "5" "2023-11-14 22:13:20" "file";
            mkListDirEntry "b" "drwxr-xr-x" "4096" "1970-01-01 00:00:00" "dir";
            mkListDirEntry "dir" "drwxr-xr-x" "4096" "1970-01-01 00:00:00" "dir";
            mkListDirEntry "present" "-rw-r--r--" "4" "1970-01-01 00:00:00" "file" ],
          nil).
Proof. vm_compute. reflexivity. Qed.

Example Mkdir_then_Rename :
  option_map (fun r => map entry_Name (fst r))
    (value_of ((_ ← Fe.Mkdir data_fe "x"; _ ← Fe.Rename data_fe "x" "y";
                ListDir data_fe "") w0))
  = Some ["a.txt"; "b"; "dir"; "present"; "y"].
Proof. vm_compute. reflexivity. Qed.

End Checks.

(* ===================================================================== *)
(** * Properties of the local file explorer                                *)
(* ===================================================================== *)

Module FeFacts.
Import Go Fe.

Section AnyOS.
Context {W : Type} `{!OS W}.

(** A library call returns. *)
Lemma sys_returns {A} (g : W -> A * W) (w : W) :
  sys g w = Ret (fst (g w)) (snd (g w)).
Proof. unfold sys. destruct (g w); reflexivity. Qed.

Lemma for_range_cons {A S} (body : A -> S -> M W S) (x : A) (xs : list A)
  (s : S) (w : W) :
  for_range (x :: xs) body s w
  = match body x s w with
    | Ret s' w' => for_range xs body s' w'
    | Panic w' => Panic w'
    end.
Proof. reflexivity. Qed.

Lemma bind_sys {A B} (g : W -> A * W) (k : A -> M W B) (w : W) :
  (a ← sys g; k a) w = k (fst (g w)) (snd (g w)).
Proof. unfold mbind, M_bind. rewrite sys_returns. reflexivity. Qed.

(** A loop whose body is one library call and that assigns the call's
    result to [err]: every item is processed in the world the items before
    it left, and the result is the last item's. *)
Lemma for_range_sys_snoc {A} (g : A -> W -> error * W) (xs : list A) (x : A)
  (e0 : error) (w : W) :
  for_range (xs ++ [x]) (fun t _ => sys (g t)) e0 w
  = sys (g x) (world_of (for_range xs (fun t _ => sys (g t)) e0 w)).
Proof.
  revert e0 w. induction xs as [|y ys IH]; intros e0 w.
  - cbn [app]. rewrite for_range_cons. change (world_of _) with w.
    rewrite (sys_returns (g x) w). reflexivity.
  - cbn [app]. rewrite !for_range_cons, (sys_returns (g y) w). apply IH.
Qed.

Lemma for_range_sys_returns {A} (g : A -> W -> error * W) (xs : list A)
  (e0 : error) (w : W) :
  exists e w', for_range xs (fun t _ => sys (g t)) e0 w = Ret e w'.
Proof.
  revert e0 w. induction xs as [|y ys IH]; intros e0 w.
  - eexists _, _. reflexivity.
  - rewrite for_range_cons, sys_returns. apply IH.
Qed.

(** A loop that calls the library and leaves [err] alone ends with the
    [err] it began with. *)
Lemma for_range_keeps_err {A B} (g : A -> W -> B * W) (xs : list A)
  (e0 : error) (w : W) :
  exists w',
    for_range xs (fun t err => _ ← sys (g t); mret err) e0 w = Ret e0 w'.
Proof.
  revert w. induction xs as [|y ys IH]; intros w.
  - eexists. reflexivity.
  - rewrite for_range_cons, bind_sys. apply IH.
Qed.

(** A loop over [xs ++ [x]]: the body runs on [x] in the world and with the
    variables the loop over [xs] left, whatever these are; a panic ends it. *)
Lemma for_range_snoc {A S} (body : A -> S -> M W S) (xs : list A) (x : A)
  (s : S) (w : W) :
  for_range (xs ++ [x]) body s w
  = match for_range xs body s w with
    | Ret s' w' => body x s' w'
    | Panic w' => Panic w'
    end.
Proof.
  revert s w. induction xs as [|y ys IH]; intros s w.
  - cbn [app]. rewrite for_range_cons.
    change (for_range [] body s w) with (Ret (W:=W) s w).
    destruct (body x s w); reflexivity.
  - cbn [app]. rewrite !for_range_cons.
    destruct (body y s w); [apply IH | reflexivity].
Qed.

Lemma Move_snoc (fe : LocalFileExplorer) (ts : list string) (t newPath : string)
  (w : W) :
  Move fe (ts ++ [t]) newPath w
  = Rename fe t newPath (world_of (Move fe ts newPath w)).
Proof. apply (for_range_sys_snoc (fun t => os_Rename _ _)). Qed.

Lemma Delete_snoc (fe : LocalFileExplorer) (ts : list string) (t : string)
  (w : W) :
  Delete fe (ts ++ [t]) w
  = sys (os_RemoveAll t) (world_of (Delete fe ts w)).
Proof. apply (for_range_sys_snoc (fun t => os_RemoveAll t)). Qed.

Lemma Copy_snoc (fe : LocalFileExplorer) (ts : list string)
  (t newPath singleFilename : string) (w : W) :
  Copy fe (ts ++ [t]) newPath singleFilename w
  = match Copy fe ts newPath singleFilename w with
    | Ret _ w' =>
        CopyFile (filepath_Join [RelativePath fe; t])
                 (filepath_Join [RelativePath fe; newPath; singleFilename]) w'
    | Panic w' => Panic w'
    end.
Proof. unfold Copy. apply for_range_snoc. Qed.

Lemma Chmod_recursive_value (fe : LocalFileExplorer) (path : list string)
  (code : string) (w : W) :
  value_of (Chmod fe path code true w)
  = Some (match strconv_Atoi code with
          | inl _ => nil
          | inr e => Some e
          end).
Proof.
  unfold Chmod. destruct (strconv_Atoi code) as [codeInt|e]; [|reflexivity].
  destruct (for_range_keeps_err
              (fun target =>
                 filepath_Walk (filepath_Join [RelativePath fe; target])
                               (chmod_walk codeInt)) path nil w) as [w' Hw].
  rewrite Hw. reflexivity.
Qed.

(** A mode code that does not parse: the error is returned and the world
    is the one before the call. *)
Lemma Chmod_unparsed (fe : LocalFileExplorer) (path : list string)
  (code : string) (recursive : bool) (e : GoError) (w : W) :
  strconv_Atoi code = inr e ->
  Chmod fe path code recursive w = Ret (Some e) w.
Proof. intros H. unfold Chmod. rewrite H. reflexivity. Qed.

(** C9.  [GetContent] on a file that [os.Stat] finds and [os.Open] opens:
    the call returns the "file too big" error exactly when the size Stat
    reports is above 1 MiB (1048576 bytes), and returns no error when the
    size is 1 MiB or less. *)
Theorem GetContent_too_big_iff_above_1MiB
  (fe : LocalFileExplorer) (item : string) (w : W) (fi : FileInfo) :
  fst (os_Stat (filepath_Join [RelativePath fe; item]) w) = inl fi ->
  (exists df,
      fst (os_Open (filepath_Join [RelativePath fe; item])
                   (snd (os_Stat (filepath_Join [RelativePath fe; item]) w)))
      = inl df) ->
  (snd <$> value_of (GetContent fe item w) = Some (Some too_big)
   <-> 1048576 < Size fi)
  /\ (Size fi <= 1048576 ->
      snd <$> value_of (GetContent fe item w) = Some nil).
Proof.
  intros Hstat [df Hopen]. unfold GetContent.
  rewrite bind_sys, Hstat.
  change (1024 * 1024) with 1048576.
  destruct (Z.gtb_spec (Size fi) 1048576) as [Hbig|Hsmall].
  - split; [split; [lia | reflexivity] | lia].
  - rewrite bind_sys, Hopen. unfold defer. rewrite bind_sys.
    cbn [value_of fmap option_fmap option_map mret M_ret snd].
    split; [split; [discriminate | lia] | reflexivity].
Qed.

(** The recursive [Chmod] is the walks from the joined items, one after the
    other; a code that does not parse ends it before any call. *)
Lemma Chmod_recursive_world (fe : LocalFileExplorer) (items : list string)
  (code : string) (w : W) :
  world_of (Chmod fe items code true w)
  = match strconv_Atoi code with
    | inl codeInt =>
        fold_left
          (fun w' t =>
             snd (filepath_Walk (filepath_Join [RelativePath fe; t])
                                (chmod_walk codeInt) w'))
          items w
    | inr _ => w
    end.
Proof.
  unfold Chmod. destruct (strconv_Atoi code) as [codeInt|e]; [| reflexivity].
  generalize Go.nil. revert w.
  induction items as [|t rest IH]; intros w err; [reflexivity |].
  rewrite for_range_cons, bind_sys. cbn [fold_left]. apply IH.
Qed.

End AnyOS.

(** ** The calls the in-memory file system records *)

Section Logs.
Import MemFS.

Ltac case_scrutinee :=
  match goal with
  | |- context [match ?x with _ => _ end] => destruct x
  end.

Ltac log_cases :=
  repeat match goal with
         | |- context [match ?x with _ => _ end] => destruct x
         end;
  reflexivity.

Lemma log_Rename (old new : string) (w : world) :
  log (snd (fs_Rename old new w)) = log w ++ [CallRename old new].
Proof. unfold fs_Rename. log_cases. Qed.

Lemma log_RemoveAll (path : string) (w : world) :
  log (snd (fs_RemoveAll path w)) = log w ++ [CallRemoveAll path].
Proof. unfold fs_RemoveAll. log_cases. Qed.

Lemma log_Mkdir (path : string) (mode : Z) (w : world) :
  log (snd (fs_Mkdir path mode w)) = log w ++ [CallMkdir path mode].
Proof. unfold fs_Mkdir. log_cases. Qed.

Lemma log_Chmod (path : string) (mode : Z) (w : world) :
  log (snd (fs_Chmod path mode w)) = log w ++ [CallChmod path mode].
Proof. unfold fs_Chmod. log_cases. Qed.

Lemma log_Stat (path : string) (w : world) :
  log (snd (fs_Stat path w)) = log w ++ [CallStat path].
Proof. reflexivity. Qed.

Lemma log_Open (path : string) (w : world) :
  log (snd (fs_Open path w)) = log w ++ [CallOpen path].
Proof. unfold fs_Open. log_cases. Qed.

Lemma log_Create (path : string) (w : world) :
  log (snd (fs_Create path w)) = log w ++ [CallCreate path].
Proof. unfold fs_Create. log_cases. Qed.

Lemma log_write_to (h : handle) (data : string) (w : world) :
  log (snd (write_to h data w)) = log w.
Proof. unfold write_to. log_cases. Qed.

Lemma log_Copy (dst src : handle) (w : world) :
  log (snd (fs_Copy dst src w)) = log w.
Proof.
  unfold fs_Copy.
  destruct (lookup_node src.2 (root w)) as [[? ? ? data|]|];
    [apply log_write_to | reflexivity | reflexivity].
Qed.

(** A loop of one recorded call per item records the calls in the order of
    the items, whatever each of them returned. *)
Lemma log_for_range {A} (g : A -> world -> error * world) (c : A -> call)
  (xs : list A) (e0 : error) (w : world) :
  (forall t w, log (snd (g t w)) = log w ++ [c t]) ->
  log (world_of (for_range xs (fun t _ => sys (g t)) e0 w))
  = log w ++ map c xs.
Proof.
  intros Hg. revert e0 w. induction xs as [|x xs IH]; intros e0 w.
  - cbn. rewrite app_nil_r. reflexivity.
  - rewrite for_range_cons, sys_returns, IH, Hg.
    cbn [map]. rewrite <- app_assoc. reflexivity.
Qed.

Lemma log_Move (fe : LocalFileExplorer) (items : list string)
  (newPath : string) (w : world) :
  log (world_of (Move fe items newPath w))
  = log w ++ map (fun t => CallRename (filepath_Join [RelativePath fe; t])
                               (filepath_Join [RelativePath fe; newPath]))
                 items.
Proof.
  unfold Move, Rename.
  apply (log_for_range (fun t => os_Rename _ _)). intros; apply log_Rename.
Qed.

Lemma log_Delete (fe : LocalFileExplorer) (items : list string) (w : world) :
  log (world_of (Delete fe items w)) = log w ++ map CallRemoveAll items.
Proof.
  unfold Delete.
  apply (log_for_range (fun t => os_RemoveAll t)). intros; apply log_RemoveAll.
Qed.

Lemma world_of_defer_Close {A} (h : handle) (body : M world A) (w : world) :
  world_of (defer (file_Close h) body w) = world_of (body w).
Proof. unfold defer. destruct (body w); reflexivity. Qed.

(** Induction over a tree and its entries. *)
Scheme node_forest_ind := Induction for node Sort Prop
  with forest_node_ind := Induction for forest Sort Prop.

Lemma log_Chmod_flat (fe : LocalFileExplorer) (items : list string)
  (code : string) (w : world) :
  log (world_of (Chmod fe items code false w))
  = log w
    ++ match strconv_Atoi code with
       | inl codeInt =>
           map (fun t => CallChmod (filepath_Join [RelativePath fe; t])
                                   (FileMode_of_int codeInt)) items
       | inr _ => []
       end.
Proof.
  unfold Chmod. destruct (strconv_Atoi code) as [codeInt|e].
  - apply (log_for_range (fun t => os_Chmod _ _)). intros; apply log_Chmod.
  - cbn. rewrite app_nil_r. reflexivity.
Qed.

Lemma log_Edit (fe : LocalFileExplorer) (item content : string) (w : world) :
  log (world_of (Edit fe item content w))
  = log w ++ [CallCreate (filepath_Join [RelativePath fe; item])].
Proof.
  unfold Edit. rewrite bind_sys.
  case_scrutinee; [| apply log_Create].
  rewrite world_of_defer_Close, sys_returns. cbn [world_of].
  etransitivity; [apply log_write_to | apply log_Create].
Qed.

(** *** The calls of CopyFile, Copy and GetContent *)

Lemma log_CopyFile (source dest : string) (w : world) :
  log (world_of (CopyFile source dest w))
  = log w ++ CopyFile_calls source dest w.
Proof.
  unfold CopyFile, CopyFile_calls. rewrite bind_sys.
  change (@os_Open world MemFS_OS) with fs_Open.
  change (@os_Create world MemFS_OS) with fs_Create.
  change (@os_Stat world MemFS_OS) with fs_Stat.
  change (@io_Copy world MemFS_OS) with fs_Copy.
  change (@file_Close world MemFS_OS) with fs_Close.
  change (@File world MemFS_OS) with handle.
  pose proof (log_Open source w) as HlogO.
  destruct (fs_Open source w) as [[sf|e0] w1]; cbn [fst snd] in *;
    [| exact HlogO].
  rewrite world_of_defer_Close, bind_sys.
  pose proof (log_Create dest w1) as HlogC.
  destruct (fs_Create dest w1) as [[df|e1] w2]; cbn [fst snd] in *.
  2: { cbn [world_of mret M_ret]. rewrite HlogC, HlogO, <- app_assoc.
       reflexivity. }
  rewrite world_of_defer_Close, bind_sys.
  pose proof (log_Copy df sf w2) as HlogW.
  destruct (fs_Copy df sf w2) as [[e2|] w3]; cbn [fst snd] in *.
  { cbn [world_of mret M_ret]. rewrite HlogW, HlogC, HlogO, <- app_assoc.
    reflexivity. }
  rewrite bind_sys. unfold fs_Stat. cbn [fst snd].
  assert (Hlog : log (logged (CallStat source) w3)
                 = log w ++ [CallOpen source; CallCreate dest; CallStat source]).
  { cbn [logged log]. rewrite HlogW, HlogC, HlogO, <- !app_assoc. reflexivity. }
  destruct (stat_as "stat" source w3); exact Hlog.
Qed.

Lemma log_Copy_exact (fe : LocalFileExplorer) (items : list string)
  (newPath singleFilename : string) (w : world) :
  log (world_of (Copy fe items newPath singleFilename w))
  = log w ++ Copy_calls fe items newPath singleFilename w.
Proof.
  unfold Copy. generalize Go.nil. revert w.
  induction items as [|t rest IH]; intros w err.
  - cbn. rewrite app_nil_r. reflexivity.
  - rewrite for_range_cons. cbn [Copy_calls]. cbv zeta.
    pose proof (log_CopyFile (filepath_Join [RelativePath fe; t])
                  (filepath_Join [RelativePath fe; newPath; singleFilename]) w)
      as Hone.
    destruct (CopyFile (filepath_Join [RelativePath fe; t])
                (filepath_Join [RelativePath fe; newPath; singleFilename]) w)
      as [e w'|w']; cbn [world_of] in Hone.
    + rewrite IH, Hone, <- app_assoc. reflexivity.
    + cbn [world_of]. rewrite Hone, app_nil_r. reflexivity.
Qed.

Lemma log_GetContent (fe : LocalFileExplorer) (item : string) (w : world) :
  log (world_of (GetContent fe item w)) = log w ++ GetContent_calls fe item w.
Proof.
  unfold GetContent, GetContent_calls. cbv zeta. rewrite bind_sys.
  change (@os_Stat world MemFS_OS) with fs_Stat.
  change (@os_Open world MemFS_OS) with fs_Open.
  change (@file_Close world MemFS_OS) with fs_Close.
  change (@scan_lines world MemFS_OS) with fs_ScanLines.
  change (@File world MemFS_OS) with handle.
  unfold fs_Stat. cbn [fst snd].
  destruct (stat_as "stat" (filepath_Join [RelativePath fe; item]) w)
    as [fi|e]; [| reflexivity].
  destruct (Size fi >? 1024 * 1024); [reflexivity |].
  rewrite bind_sys.
  pose proof (log_Open (filepath_Join [RelativePath fe; item])
                (logged (CallStat (filepath_Join [RelativePath fe; item])) w))
    as HlogO.
  destruct (fs_Open (filepath_Join [RelativePath fe; item])
              (logged (CallStat (filepath_Join [RelativePath fe; item])) w))
    as [[df|e1] w1]; cbn [fst snd] in *.
  - rewrite world_of_defer_Close, bind_sys. cbn [world_of mret M_ret].
    assert (Hscan : log (snd (fs_ScanLines df w1)) = log w1).
    { unfold fs_ScanLines.
      destruct (lookup_node (snd df) (root w1)) as [[]|]; reflexivity. }
    rewrite Hscan, HlogO. cbn [logged log]. rewrite <- app_assoc. reflexivity.
  - cbn [world_of mret M_ret]. rewrite HlogO. cbn [logged log].
    rewrite <- app_assoc. reflexivity.
Qed.

(** *** The recursive Chmod: what a walk calls *)

Lemma log_chmod_walk (codeInt : Z) (p : string) (info : option FileInfo)
  (err : error) (w : world) :
  log (snd (chmod_walk codeInt p info err w))
  = log w ++ match err with
             | None => [CallChmod p (FileMode_of_int codeInt)]
             | Some _ => []
             end.
Proof.
  unfold chmod_walk. destruct err as [e|].
  - cbn. rewrite app_nil_r. reflexivity.
  - apply log_Chmod.
Qed.

Lemma log_walk (codeInt : Z) (n : node) :
  forall (path : string) (info : FileInfo) (w : world),
  exists ps,
    log (snd (walk path n info (chmod_walk codeInt) w))
    = log w ++ map (fun p => CallChmod p (FileMode_of_int codeInt)) ps
    /\ (exists rest, ps = path :: rest)
    /\ incl ps (walk_paths path n).
Proof.
  induction n as [m u t d | m u t es IHes | | name x IHx rest IHrest]
    using node_forest_ind with
    (P0 := fun es =>
       forall (path : string) (w : world),
       exists ps,
         log (snd (walk_names path es (chmod_walk codeInt) w))
         = log w ++ map (fun p => CallChmod p (FileMode_of_int codeInt)) ps
         /\ incl ps (walk_paths_names path es)).
  - (* a regular file *)
    intros path info w. exists [path]. cbn [walk].
    pose proof (log_chmod_walk codeInt path (Some info) nil w) as Hfn.
    split; [| split; [eexists; reflexivity |]].
    + destruct (negb (IsDir (Mode info))); [exact Hfn |].
      destruct (chmod_walk codeInt path (Some info) nil w) as [err1 w1].
      destruct err1; exact Hfn.
    + intros p [<- | []]. left. reflexivity.
  - (* a directory *)
    intros path info w. cbn [walk].
    pose proof (log_chmod_walk codeInt path (Some info) nil w) as Hfn.
    assert (Hone : incl [path] (walk_paths path (Directory m u t es))).
    { intros p [<- | []]. left. reflexivity. }
    destruct (negb (IsDir (Mode info))).
    { exists [path]. split; [exact Hfn |].
      split; [eexists; reflexivity | exact Hone]. }
    destruct (chmod_walk codeInt path (Some info) nil w) as [err1 w1].
    cbn [snd] in Hfn. destruct err1 as [e|].
    { exists [path]. split; [exact Hfn |].
      split; [eexists; reflexivity | exact Hone]. }
    destruct (IHes path w1) as (ps & Hlog & Hin).
    exists (path :: ps). split; [| split; [eexists; reflexivity |]].
    + rewrite Hlog, Hfn, <- app_assoc. reflexivity.
    + intros p [<- | Hp]; [left; reflexivity |].
      right. apply Hin. exact Hp.
  - (* no name left *)
    intros path w. exists []. split; [cbn; rewrite app_nil_r; reflexivity |].
    intros p [].
  - (* a name, then the others *)
    intros path w. cbn [walk_names walk_paths_names].
    destruct (stat_as "lstat" (filepath_Join [path; name]) w) as [fileInfo|e].
    + destruct (IHx (filepath_Join [path; name]) fileInfo w)
        as (ps1 & Hlog1 & _ & Hin1).
      destruct (walk (filepath_Join [path; name]) x fileInfo
                     (chmod_walk codeInt) w) as [err w'].
      cbn [snd] in Hlog1.
      assert (Hstop : exists ps,
                 log w' = log w
                          ++ map (fun p => CallChmod p (FileMode_of_int codeInt))
                                 ps
                 /\ incl ps (walk_paths (filepath_Join [path; name]) x
                             ++ walk_paths_names path rest)).
      { exists ps1. split; [exact Hlog1 |].
        intros p Hp. apply in_or_app. left. apply Hin1. exact Hp. }
      assert (Hgo : exists ps,
                 log (snd (walk_names path rest (chmod_walk codeInt) w'))
                 = log w
                   ++ map (fun p => CallChmod p (FileMode_of_int codeInt)) ps
                 /\ incl ps (walk_paths (filepath_Join [path; name]) x
                             ++ walk_paths_names path rest)).
      { destruct (IHrest path w') as (ps2 & Hlog2 & Hin2).
        exists (ps1 ++ ps2). split.
        - rewrite Hlog2, Hlog1, map_app, <- app_assoc. reflexivity.
        - intros p Hp. apply in_app_or in Hp. apply in_or_app.
          destruct Hp as [Hp | Hp]; [left; apply Hin1 | right; apply Hin2];
            exact Hp. }
      destruct err as [e'|]; [| exact Hgo].
      destruct (negb (IsDir (Mode fileInfo)) || negb (is_SkipDir e'));
        [exact Hstop | exact Hgo].
    + pose proof (log_chmod_walk codeInt (filepath_Join [path; name]) None
                    (Some e) w) as Hfn.
      destruct (chmod_walk codeInt (filepath_Join [path; name]) None (Some e) w)
        as [err w'].
      cbn [snd] in Hfn. rewrite app_nil_r in Hfn.
      assert (Hstop : exists ps,
                 log w' = log w
                          ++ map (fun p => CallChmod p (FileMode_of_int codeInt))
                                 ps
                 /\ incl ps (walk_paths (filepath_Join [path; name]) x
                             ++ walk_paths_names path rest)).
      { exists []. split; [cbn; rewrite app_nil_r; exact Hfn | intros p []]. }
      assert (Hgo : exists ps,
                 log (snd (walk_names path rest (chmod_walk codeInt) w'))
                 = log w
                   ++ map (fun p => CallChmod p (FileMode_of_int codeInt)) ps
                 /\ incl ps (walk_paths (filepath_Join [path; name]) x
                             ++ walk_paths_names path rest)).
      { destruct (IHrest path w') as (ps2 & Hlog2 & Hin2).
        exists ps2. split; [rewrite Hlog2, Hfn; reflexivity |].
        intros p Hp. apply in_or_app. right. apply Hin2. exact Hp. }
      destruct err as [e'|]; [| exact Hgo].
      destruct (is_SkipDir e'); [exact Hgo | exact Hstop].
Qed.

(** One walk with [Chmod]'s function: the walk's root is logged, then come
    chmods only, of paths walked from the root in the tree as it was; the
    root itself is the first when it is there. *)
Lemma log_Walk (rootpath : string) (codeInt : Z) (w : world) :
  exists ps,
    log (snd (fs_Walk rootpath (chmod_walk codeInt) w))
    = log w
      ++ CallWalk rootpath
         :: map (fun p => CallChmod p (FileMode_of_int codeInt)) ps
    /\ (forall p, In p ps -> walked w rootpath p)
    /\ (forall n, lookup w rootpath = inl n -> exists rest, ps = rootpath :: rest).
Proof.
  unfold fs_Walk, walked. cbv zeta.
  set (w0 := logged (CallWalk rootpath) w).
  unfold stat_as. change (lookup w0 rootpath) with (lookup w rootpath).
  destruct (lookup w rootpath) as [n|e].
  - destruct (log_walk codeInt n rootpath (info_of (basename rootpath) n) w0)
      as (ps & Hlog & Hhead & Hin).
    exists ps.
    destruct (walk rootpath n (info_of (basename rootpath) n)
                   (chmod_walk codeInt) w0) as [err w'].
    cbn [snd] in Hlog.
    assert (Hl : log w'
                 = log w ++ CallWalk rootpath
                    :: map (fun p => CallChmod p (FileMode_of_int codeInt)) ps).
    { rewrite Hlog. unfold w0. cbn [logged log]. rewrite <- app_assoc.
      reflexivity. }
    split; [| split; [exact Hin | intros _ _; exact Hhead]].
    destruct err as [e'|]; [destruct (is_SkipDir e') |]; exact Hl.
  - exists [].
    pose proof (log_chmod_walk codeInt rootpath None
                  (Some (PathError "lstat" rootpath e)) w0) as Hfn.
    destruct (chmod_walk codeInt rootpath None
                         (Some (PathError "lstat" rootpath e)) w0)
      as [err w'].
    cbn [snd] in Hfn. rewrite app_nil_r in Hfn.
    split; [| split; [intros p [] | intros n Hn; discriminate Hn]].
    destruct err as [e'|]; [destruct (is_SkipDir e') |]; exact Hfn.
Qed.

End Logs.

(** C2.  For every explorer (so for every one with a non-empty
    RelativePath) and every state of the in-memory file system, the calls
    made into the [os] package are these, and no others.  Delete hands each
    item to [os.RemoveAll] as the string it was given.  Mkdir, Rename, the
    flat Chmod and Edit call with the paths joined under RelativePath.  Copy
    opens, for each item in turn, the item joined under RelativePath, then
    creates the destination joined under RelativePath and stats the joined
    item, each when the call before it went through.  The recursive Chmod is
    one walk per item from the item joined under RelativePath, and a walk
    chmods only paths walked from that root in the tree, the root first.
    GetContent stats the joined item and then opens it.  On the sample tree
    the explorer of /srv/data, asked to delete "a.txt" by a process in "/",
    removes /a.txt and leaves /srv/data/a.txt, while its Mkdir of "x"
    creates /srv/data/x and its recursive Chmod of "b" chmods /srv/data/b
    and /srv/data/b/c.txt. *)
Theorem Delete_takes_paths_as_given_the_others_join_RelativePath :
  (forall (fe : LocalFileExplorer) (w : MemFS.world),
      (forall items,
          MemFS.log (world_of (Delete fe items w))
          = MemFS.log w ++ map MemFS.CallRemoveAll items)
      /\ (forall path,
             MemFS.log (world_of (Mkdir fe path w))
             = MemFS.log w
               ++ [MemFS.CallMkdir (filepath_Join [RelativePath fe; path])
                                   448])
      /\ (forall path newPath,
             MemFS.log (world_of (Rename fe path newPath w))
             = MemFS.log w
               ++ [MemFS.CallRename
                     (filepath_Join [RelativePath fe; path])
                     (filepath_Join [RelativePath fe; newPath])])
      /\ (forall items newPath singleFilename,
             MemFS.log (world_of (Copy fe items newPath singleFilename w))
             = MemFS.log w
               ++ MemFS.Copy_calls fe items newPath singleFilename w)
      /\ (forall items code,
             MemFS.log (world_of (Chmod fe items code false w))
             = MemFS.log w
               ++ match strconv_Atoi code with
                  | inl codeInt =>
                      map (fun t =>
                             MemFS.CallChmod
                               (filepath_Join [RelativePath fe; t])
                               (FileMode_of_int codeInt)) items
                  | inr _ => []
                  end)
      /\ (forall items code,
             world_of (Chmod fe items code true w)
             = match strconv_Atoi code with
               | inl codeInt =>
                   fold_left
                     (fun w' t =>
                        snd (MemFS.fs_Walk
                               (filepath_Join [RelativePath fe; t])
                               (chmod_walk codeInt) w'))
                     items w
               | inr _ => w
               end)
      /\ (forall rootpath codeInt,
             exists ps,
               MemFS.log (snd (MemFS.fs_Walk rootpath (chmod_walk codeInt) w))
               = MemFS.log w
                 ++ MemFS.CallWalk rootpath
                    :: map (fun p =>
                              MemFS.CallChmod p (FileMode_of_int codeInt)) ps
               /\ (forall p, In p ps -> MemFS.walked w rootpath p)
               /\ (forall n,
                      MemFS.lookup w rootpath = inl n ->
                      exists rest, ps = rootpath :: rest))
      /\ (forall item,
             MemFS.log (world_of (GetContent fe item w))
             = MemFS.log w ++ MemFS.GetContent_calls fe item w)
      /\ (forall item content,
             MemFS.log (world_of (Edit fe item content w))
             = MemFS.log w
               ++ [MemFS.CallCreate
                     (filepath_Join [RelativePath fe; item])]))
  /\ MemFS.log (world_of (Delete MemFS.data_fe ["a.txt"] MemFS.w0))
     = [MemFS.CallRemoveAll "a.txt"]
  /\ MemFS.lookup (world_of (Delete MemFS.data_fe ["a.txt"] MemFS.w0))
                  "/a.txt"
     = inr ENOENT
  /\ MemFS.lookup (world_of (Delete MemFS.data_fe ["a.txt"] MemFS.w0))
                  "/srv/data/a.txt"
     = inl (MemFS.RegFile 420 1000 1700000000 "hello")
  /\ MemFS.log (world_of (Mkdir MemFS.data_fe "x" MemFS.w0))
     = [MemFS.CallMkdir "/srv/data/x" 448]
  /\ MemFS.lookup (world_of (Mkdir MemFS.data_fe "x" MemFS.w0))
                  "/srv/data/x"
     = inl (MemFS.Directory 448 1000 1 MemFS.NoEntry)
  /\ MemFS.log (world_of (Copy MemFS.data_fe ["a.txt"; "present"] "dir" "copy"
                               MemFS.w0))
     = [MemFS.CallOpen "/srv/data/a.txt";
        MemFS.CallCreate "/srv/data/dir/copy";
        MemFS.CallStat "/srv/data/a.txt";
        MemFS.CallOpen "/srv/data/present";
        MemFS.CallCreate "/srv/data/dir/copy";
        MemFS.CallStat "/srv/data/present"]
  /\ MemFS.log (world_of (Chmod MemFS.data_fe ["b"] "448" true MemFS.w0))
     = [MemFS.CallWalk "/srv/data/b";
        MemFS.CallChmod "/srv/data/b" 448;
        MemFS.CallChmod "/srv/data/b/c.txt" 448]
  /\ MemFS.log (world_of (GetContent MemFS.data_fe "a.txt" MemFS.w0))
     = [MemFS.CallStat "/srv/data/a.txt"; MemFS.CallOpen "/srv/data/a.txt"].
Proof.
  split.
  - intros fe w.
    split; [intros; apply log_Delete |].
    split; [intros; unfold Mkdir; rewrite sys_returns; apply log_Mkdir |].
    split; [intros; unfold Rename; rewrite sys_returns; apply log_Rename |].
    split; [intros; apply log_Copy_exact |].
    split; [intros; apply log_Chmod_flat |].
    split; [intros; exact (Chmod_recursive_world fe items code w) |].
    split; [intros; apply log_Walk |].
    split; [intros; apply log_GetContent |].
    intros; apply log_Edit.
  - repeat apply conj; vm_compute; reflexivity.
Qed.

(** C4, as amended.  Move, Copy and Delete take the items in order, and the
    last item is run in the world the items before it left, whatever they
    returned: its result is the result of the call, so the call fails when
    the last item fails and succeeds when no item fails (for Copy, unless
    CopyFile panicked on the way).  On the in-memory file system the log has
    one rename, one removal, per item.  Removing a path that does not exist
    is no failure: in /srv/data, Delete of "missing" and "present" returns
    nil and "present" is gone. *)
Theorem bulk_operations_go_on_and_return_the_last_result :
  (forall (W : Type) (O : OS W) (fe : LocalFileExplorer) (ts : list string)
          (t newPath : string) (w : W),
      Move fe (ts ++ [t]) newPath w
      = Rename fe t newPath (world_of (Move fe ts newPath w)))
  /\ (forall (W : Type) (O : OS W) (fe : LocalFileExplorer)
             (ts : list string) (t : string) (w : W),
         Delete fe (ts ++ [t]) w
         = sys (os_RemoveAll t) (world_of (Delete fe ts w)))
  /\ (forall (W : Type) (O : OS W) (fe : LocalFileExplorer)
             (ts : list string) (t newPath singleFilename : string) (w : W),
         Copy fe (ts ++ [t]) newPath singleFilename w
         = match Copy fe ts newPath singleFilename w with
           | Ret _ w' =>
               CopyFile (filepath_Join [RelativePath fe; t])
                        (filepath_Join [RelativePath fe; newPath;
                                        singleFilename]) w'
           | Panic w' => Panic w'
           end)
  /\ (forall (fe : LocalFileExplorer) (items : list string)
             (newPath : string) (w : MemFS.world),
         MemFS.log (world_of (Move fe items newPath w))
         = MemFS.log w
           ++ map (fun t =>
                     MemFS.CallRename
                       (filepath_Join [RelativePath fe; t])
                       (filepath_Join [RelativePath fe; newPath]))
                  items)
  /\ (forall (fe : LocalFileExplorer) (items : list string)
             (w : MemFS.world),
         MemFS.log (world_of (Delete fe items w))
         = MemFS.log w ++ map MemFS.CallRemoveAll items)
  /\ MemFS.lookup MemFS.w_data "missing" = inr ENOENT
  /\ MemFS.lookup MemFS.w_data "present"
     = inl (MemFS.RegFile 420 1000 0 "here")
  /\ value_of (Delete MemFS.data_fe ["missing"; "present"] MemFS.w_data)
     = Some nil
  /\ MemFS.lookup
       (world_of (Delete MemFS.data_fe ["missing"; "present"] MemFS.w_data))
       "present"
     = inr ENOENT.
Proof.
  split; [intros; apply Move_snoc |].
  split; [intros; apply Delete_snoc |].
  split; [intros; apply Copy_snoc |].
  split; [intros; apply log_Move |].
  split; [intros; apply log_Delete |].
  repeat apply conj; vm_compute; reflexivity.
Qed.

(** C4 as stated fails.  On the sample tree, Move of "missing" and "present"
    to "moved": the rename of "missing" fails with ENOENT, the rename of
    "present" succeeds, and the call returns nil.  And Delete of "missing"
    and "present" returns nil, where the claim has it report a failure. *)
Lemma an_earlier_failure_is_not_reported :
  item_results (fun t => os_Rename (filepath_Join ["/srv/data"; t])
                                   (filepath_Join ["/srv/data"; "moved"]))
               ["missing"; "present"] MemFS.w0
  = [Some (LinkError "rename" "/srv/data/missing" "/srv/data/moved" ENOENT);
     nil]
  /\ ~ reports_any_failure
         (item_results (fun t => os_Rename (filepath_Join ["/srv/data"; t])
                                           (filepath_Join ["/srv/data"; "moved"]))
                       ["missing"; "present"] MemFS.w0)
         (value_of (Move MemFS.data_fe ["missing"; "present"] "moved"
                         MemFS.w0))
  /\ value_of (Delete MemFS.data_fe ["missing"; "present"] MemFS.w_data)
     = Some nil.
Proof.
  assert (Hres :
    item_results (fun t => os_Rename (filepath_Join ["/srv/data"; t])
                                     (filepath_Join ["/srv/data"; "moved"]))
                 ["missing"; "present"] MemFS.w0
    = [Some (LinkError "rename" "/srv/data/missing" "/srv/data/moved" ENOENT);
       nil]) by (vm_compute; reflexivity).
  assert (Hval :
    value_of (Move MemFS.data_fe ["missing"; "present"] "moved" MemFS.w0)
    = Some nil) by (vm_compute; reflexivity).
  split; [exact Hres |]. split; [| vm_compute; reflexivity].
  unfold reports_any_failure. rewrite Hres, Hval. intros Hclaim.
  destruct Hclaim as [e He]; [eexists; left; reflexivity | discriminate He].
Qed.

(** C8.  [Chmod] with [recursive] true returns nil whenever the mode code
    parses, on every file system and whatever [filepath.Walk] and the
    [os.Chmod] calls under it return: the result of Walk is dropped.  On the
    sample tree, where the process does not own b/c.txt: [os.Chmod] on that
    file fails with EPERM, the walk of "b" makes that very call, the file's
    mode stays as it was, [Chmod] returns nil and the dispatcher answers the
    changePermissions request with the success envelope. *)
Theorem Chmod_recursive_returns_nil_when_a_descendant_fails :
  (forall (W : Type) (O : OS W) (fe : LocalFileExplorer) (path : list string)
          (code : string) (w : W),
      value_of (Chmod fe path code true w)
      = Some (match strconv_Atoi code with
              | inl _ => nil
              | inr e => Some e
              end))
  /\ fst (MemFS.fs_Chmod "/srv/data/b/c.txt" (FileMode_of_int 755) MemFS.w0)
     = Some (PathError "chmod" "/srv/data/b/c.txt" EPERM)
  /\ value_of (Chmod MemFS.data_fe ["b"] "755" true MemFS.w0) = Some nil
  /\ MemFS.log (world_of (Chmod MemFS.data_fe ["b"] "755" true MemFS.w0))
     = [MemFS.CallWalk "/srv/data/b"; MemFS.CallChmod "/srv/data/b" 755;
        MemFS.CallChmod "/srv/data/b/c.txt" 755]
  /\ MemFS.lookup (world_of (Chmod MemFS.data_fe ["b"] "755" true MemFS.w0))
                  "/srv/data/b/c.txt"
     = inl (MemFS.RegFile 420 0 0 "root's")
  /\ (forall Error : GoError -> string,
         Main.written
           (world_of
              (Main.apiHandler Error
                 (Main.mkReq "changePermissions" "" "" "" ["b"] "" "" "755"
                             true)
                 (Main.mkSessionInfo "user" "secret" (Some MemFS.data_fe)
                                     "user")
                 (Main.mkHandling MemFS.w0 [])))
         = [Main.JSON 200 (Main.GenericResp (Main.mkBody true ""))]).
Proof.
  split; [intros; apply Chmod_recursive_value |].
  repeat apply conj; vm_compute; reflexivity.
Qed.

(** C5.  [Chmod] reads the mode code with [strconv.Atoi], in base ten: the
    code "755" is the number 755, whose permission bits are -wxrw--wx (0363),
    not rwxr-xr-x (0755 = 493).  On the sample tree the call hands 755 to
    [os.Chmod] and a.txt ends with the bits 0363 = 243.  A code that does not
    parse makes [Chmod] return the parse error in the world it was called in:
    no file is touched. *)
Theorem Chmod_reads_the_mode_code_in_base_ten :
  strconv_Atoi "755" = inl 755
  /\ FileMode_String (FileMode_of_int 755) = "--wxrw--wx"
  /\ FileMode_String (FileMode_of_int 493) = "-rwxr-xr-x"
  /\ value_of (Chmod MemFS.data_fe ["a.txt"] "755" false MemFS.w0) = Some nil
  /\ MemFS.log (world_of (Chmod MemFS.data_fe ["a.txt"] "755" false MemFS.w0))
     = [MemFS.CallChmod "/srv/data/a.txt" 755]
  /\ MemFS.stat_as "stat" "/srv/data/a.txt"
       (world_of (Chmod MemFS.data_fe ["a.txt"] "755" false MemFS.w0))
     = inl (mkFileInfo "a.txt" 5 243 1700000000)
  /\ (forall (W : Type) (O : OS W) (fe : LocalFileExplorer)
             (path : list string) (code : string) (recursive : bool) (w : W),
         match strconv_Atoi code with
         | inr e => Chmod fe path code recursive w = Ret (Some e) w
         | inl _ => True
         end).
Proof.
  repeat apply conj;
    [vm_compute; reflexivity .. |].
  intros W O fe path code recursive w.
  destruct (strconv_Atoi code) as [n|e] eqn:Hcode; [exact I |].
  apply Chmod_unparsed, Hcode.
Qed.

(** C6.  [Move] hands every item to [os.Rename] with the new name
    [RelativePath/newPath] itself, never a name inside it.  On the sample
    tree: moving a.txt to the existing directory "dir" fails with EEXIST and
    changes nothing; moving a.txt to the free name "dest" succeeds and makes
    "dest" the file itself, so that nothing lies inside "dest"; moving a.txt
    and present to "dest" succeeds and leaves one file, the second. *)
Theorem Move_renames_each_item_onto_newPath :
  (forall (fe : LocalFileExplorer) (items : list string) (newPath : string)
          (w : MemFS.world),
      MemFS.log (world_of (Move fe items newPath w))
      = MemFS.log w
        ++ map (fun t =>
                  MemFS.CallRename (filepath_Join [RelativePath fe; t])
                                   (filepath_Join [RelativePath fe; newPath]))
               items)
  /\ value_of (Move MemFS.data_fe ["a.txt"] "dir" MemFS.w0)
     = Some (Some (LinkError "rename" "/srv/data/a.txt" "/srv/data/dir"
                             EEXIST))
  /\ MemFS.root (world_of (Move MemFS.data_fe ["a.txt"] "dir" MemFS.w0))
     = MemFS.root MemFS.w0
  /\ value_of (Move MemFS.data_fe ["a.txt"] "dest" MemFS.w0) = Some nil
  /\ MemFS.lookup (world_of (Move MemFS.data_fe ["a.txt"] "dest" MemFS.w0))
                  "/srv/data/dest"
     = inl (MemFS.RegFile 420 1000 1700000000 "hello")
  /\ MemFS.lookup (world_of (Move MemFS.data_fe ["a.txt"] "dest" MemFS.w0))
                  "/srv/data/dest/a.txt"
     = inr ENOTDIR
  /\ value_of (Move MemFS.data_fe ["a.txt"; "present"] "dest" MemFS.w0)
     = Some nil
  /\ MemFS.ReadDir_names
       (world_of (Move MemFS.data_fe ["a.txt"; "present"] "dest" MemFS.w0))
       "/srv/data"
     = ["b"; "dest"; "dir"]
  /\ MemFS.lookup
       (world_of (Move MemFS.data_fe ["a.txt"; "present"] "dest" MemFS.w0))
       "/srv/data/dest"
     = inl (MemFS.RegFile 420 1000 0 "here").
Proof.
  split; [intros; apply log_Move |].
  repeat apply conj; vm_compute; reflexivity.
Qed.

(** On the in-memory file system: a file of exactly 1 MiB is read, a file
    of 1 MiB and one byte is refused. *)
Lemma GetContent_1MiB_witness :
  snd <$> value_of (GetContent MemFS.data_fe "big" (MemFS.w_big 1048576))
  = Some nil
  /\ snd <$> value_of (GetContent MemFS.data_fe "big" (MemFS.w_big 1048577))
     = Some (Some too_big).
Proof.
  split.
  - refine (proj2 (GetContent_too_big_iff_above_1MiB MemFS.data_fe "big"
                     (MemFS.w_big 1048576)
                     (mkFileInfo "big" 1048576 420 0) _ _) _).
    + vm_compute. reflexivity.
    + eexists. vm_compute. reflexivity.
    + simpl. lia.
  - refine (proj2 (proj1 (GetContent_too_big_iff_above_1MiB MemFS.data_fe "big"
                     (MemFS.w_big 1048577)
                     (mkFileInfo "big" 1048577 420 0) _ _)) _).
    + vm_compute. reflexivity.
    + eexists. vm_compute. reflexivity.
    + simpl. lia.
Defined.

(** ** More of package fe, against any file system *)

Section AnyOSMore.
Context {W : Type} `{!OS W}.

Lemma for_range_collect {A R} (g : A -> R) (xs : list A) (acc : list R)
  (w : W) :
  for_range xs (fun x (results : list R) => mret (app results [g x])) acc w
  = Ret (acc ++ map g xs) w.
Proof.
  revert acc. induction xs as [|x xs IH]; intros acc.
  - cbn [map]. rewrite app_nil_r. reflexivity.
  - rewrite for_range_cons.
    change ((mret (acc ++ [g x]) : M W (list R)) w) with (Ret (acc ++ [g x]) w).
    cbv beta iota. rewrite IH, <- app_assoc. reflexivity.
Qed.

(** X13.  [ListDir] reads the directory joined under RelativePath and returns
    one entry per file [ioutil.ReadDir] gave, in the same order, with a nil
    error; when ReadDir fails it returns no entry and ReadDir's error.  It
    makes no other call. *)
Theorem ListDir_lists_what_ReadDir_gave (fe : LocalFileExplorer)
  (path : string) (w : W) :
  ListDir fe path w
  = match fst (ioutil_ReadDir (filepath_Join [RelativePath fe; path]) w) with
    | inl files =>
        Ret (map list_entry files, nil)
            (snd (ioutil_ReadDir (filepath_Join [RelativePath fe; path]) w))
    | inr err =>
        Ret ([], Some err)
            (snd (ioutil_ReadDir (filepath_Join [RelativePath fe; path]) w))
    end.
Proof.
  unfold ListDir. rewrite bind_sys.
  destruct (fst (ioutil_ReadDir (filepath_Join [RelativePath fe; path]) w))
    as [files|err]; [| reflexivity].
  unfold mbind, M_bind. rewrite for_range_collect. reflexivity.
Qed.

(** X14.  [CopyFile] panics exactly when Open, Create and io.Copy went
    through and [os.Stat] of the source then fails: the error test after
    Stat is inverted, so the mode is read from a nil FileInfo.  In every
    other case it returns. *)
Theorem CopyFile_panics_exactly_when_Stat_fails (source dest : string)
  (w : W) :
  (exists w', CopyFile source dest w = Panic w')
  <-> exists sf df e,
      fst (os_Open source w) = inl sf
      /\ fst (os_Create dest (snd (os_Open source w))) = inl df
      /\ fst (io_Copy df sf (snd (os_Create dest (snd (os_Open source w)))))
         = nil
      /\ fst (os_Stat source
                (snd (io_Copy df sf
                        (snd (os_Create dest (snd (os_Open source w)))))))
         = inr e.
Proof.
  unfold CopyFile. rewrite bind_sys.
  destruct (os_Open source w) as [[sf|e0] w1]; cbn [fst snd].
  2: { split; [intros [w' Hp]; discriminate Hp
              | intros (sf & df & e & Ho & _); discriminate Ho]. }
  unfold defer at 1. rewrite bind_sys.
  destruct (os_Create dest w1) as [[df|e1] w2]; cbn [fst snd].
  2: { split; [intros [w' Hp]; cbn in Hp; inversion Hp
              | intros (sf' & df & e & _ & Hc & _); discriminate Hc]. }
  unfold defer at 1. rewrite bind_sys.
  destruct (io_Copy df sf w2) as [[e2|] w3] eqn:Hcopy; cbn [fst snd].
  { split; [intros [w' Hp]; cbn in Hp; inversion Hp |].
    intros (sf' & df' & e & Ho & Hc & Hcp & _).
    injection Ho as <-. injection Hc as <-. rewrite Hcopy in Hcp.
    discriminate Hcp. }
  rewrite bind_sys.
  destruct (os_Stat source w3) as [[fi|e3] w4] eqn:Hstat; cbn [fst snd].
  { split; [intros [w' Hp]; cbn in Hp; inversion Hp |].
    intros (sf' & df' & e & Ho & Hc & _ & Hst).
    injection Ho as <-. injection Hc as <-. rewrite Hcopy in Hst.
    cbn [snd] in Hst. rewrite Hstat in Hst. discriminate Hst. }
  split; [| intros _; cbn; eexists; reflexivity].
  intros _. exists sf, df, e3. rewrite Hcopy. cbn [fst snd]. rewrite Hstat.
  repeat apply conj; reflexivity.
Qed.

(** X15.  [GetContent] returns on every input, and with an error the text it
    returns is empty.  A file [os.Stat] does not find is not opened: the
    call returns Stat's error in the world Stat left. *)
Theorem GetContent_gives_no_text_with_an_error (fe : LocalFileExplorer)
  (item : string) (w : W) :
  (exists text err w',
      GetContent fe item w = Ret (text, err) w'
      /\ (err <> nil -> text = ""))
  /\ (forall e,
         fst (os_Stat (filepath_Join [RelativePath fe; item]) w) = inr e ->
         GetContent fe item w
         = Ret ("", Some e)
               (snd (os_Stat (filepath_Join [RelativePath fe; item]) w))).
Proof.
  unfold GetContent. cbv zeta. rewrite bind_sys.
  destruct (fst (os_Stat (filepath_Join [RelativePath fe; item]) w))
    as [fi|e0].
  - split; [| intros e He; discriminate He].
    destruct (Size fi >? 1024 * 1024).
    + eexists _, _, _. split; [reflexivity | reflexivity].
    + rewrite bind_sys.
      destruct (fst (os_Open _ _)) as [df|e1].
      * unfold defer. rewrite bind_sys.
        eexists _, _, _. split; [reflexivity |]. intros Hne. contradiction.
      * eexists _, _, _. split; [reflexivity | reflexivity].
  - split.
    + eexists _, _, _. split; [reflexivity | reflexivity].
    + intros e He. injection He as <-. reflexivity.
Qed.

(** X16.  The non-recursive [Chmod] with a code that parses: the items are
    taken in order, each joined under RelativePath, and the last item is
    run in the world the items before it left, whatever they returned; its
    result is the result of the call. *)
Theorem Chmod_flat_goes_on_and_returns_the_last_result
  (fe : LocalFileExplorer) (ts : list string) (t code : string)
  (codeInt : Z) (w : W) :
  strconv_Atoi code = inl codeInt ->
  Chmod fe (ts ++ [t]) code false w
  = sys (os_Chmod (filepath_Join [RelativePath fe; t])
                  (FileMode_of_int codeInt))
        (world_of (Chmod fe ts code false w)).
Proof.
  intros Hcode. unfold Chmod. rewrite Hcode.
  apply (for_range_sys_snoc (fun t => os_Chmod _ _)).
Qed.

End AnyOSMore.

(** ** Files written and read back, on the in-memory file system *)

Section Files.
Import MemFS.

Lemma find_put_eq (name : string) (x : node) (es : forest) :
  find name (put name x es) = Some x.
Proof.
  induction es as [|n y rest IH]; cbn [put find].
  - rewrite String.eqb_refl. reflexivity.
  - destruct (String.eqb n name) eqn:Hn.
    + cbn [find]. rewrite String.eqb_refl. reflexivity.
    + destruct (String.ltb name n).
      * cbn [find]. rewrite String.eqb_refl. reflexivity.
      * cbn [find]. rewrite Hn. exact IH.
Qed.

Lemma lookup_node_snoc (parent : list string) (name : string) (r : node) :
  lookup_node (parent ++ [name]) r
  = match lookup_node parent r with
    | inl (Directory _ _ _ es) =>
        match find name es with
        | Some x => inl x
        | None => inr ENOENT
        end
    | inl (RegFile _ _ _ _) => inr ENOTDIR
    | inr e => inr e
    end.
Proof.
  revert r. induction parent as [|n rest IH]; intros r.
  - cbn. destruct r as [| m u t es]; [reflexivity |].
    destruct (find name es); reflexivity.
  - cbn [app lookup_node]. destruct r as [| m u t es]; [reflexivity |].
    destruct (find n es) as [y|]; [apply IH | reflexivity].
Qed.

(** A rewrite of a directory that went through: the directory was there,
    and is there rewritten. *)
Lemma in_dir_inl (parent : list string) (g : forest -> forest + Errno)
  (r r' : node) :
  in_dir parent g r = inl r' ->
  exists m u t es es',
    lookup_node parent r = inl (Directory m u t es)
    /\ g es = inl es'
    /\ lookup_node parent r' = inl (Directory m u t es').
Proof.
  revert r r'. induction parent as [|n rest IH]; intros r r' Hin.
  - destruct r as [| m u t es]; [discriminate Hin |]. cbn in Hin.
    destruct (g es) as [es'|e] eqn:Hg; [| discriminate Hin].
    injection Hin as <-. exists m, u, t, es, es'. repeat split. exact Hg.
  - destruct r as [| m u t es]; [discriminate Hin |]. cbn [in_dir] in Hin.
    destruct (find n es) as [y|] eqn:Hfind; [| discriminate Hin].
    destruct (in_dir rest g y) as [y'|e] eqn:Hrest; [| discriminate Hin].
    injection Hin as <-.
    destruct (IH y y' Hrest) as (m' & u' & t' & es0 & es' & Hl & Hg & Hl').
    exists m', u', t', es0, es'. cbn [lookup_node].
    rewrite Hfind, find_put_eq. repeat split; assumption.
Qed.

Lemma in_dir_ok (parent : list string) (g : forest -> forest + Errno)
  (r : node) (m u t : Z) (es es' : forest) :
  lookup_node parent r = inl (Directory m u t es) ->
  g es = inl es' ->
  exists r', in_dir parent g r = inl r'.
Proof.
  revert r. induction parent as [|n rest IH]; intros r Hl Hg.
  - cbn in Hl. injection Hl as ->. cbn. rewrite Hg. eexists. reflexivity.
  - destruct r as [| m0 u0 t0 es0]; [discriminate Hl |].
    cbn [lookup_node] in Hl. cbn [in_dir].
    destruct (find n es0) as [y|]; [| discriminate Hl].
    destruct (IH y Hl Hg) as [y' Hy']. rewrite Hy'. eexists. reflexivity.
Qed.

Lemma parent_and_name_snoc (names parent : list string) (name : string) :
  parent_and_name names = Some (parent, name) -> names = parent ++ [name].
Proof.
  unfold parent_and_name. destruct (rev names) as [|n p] eqn:Hrev;
    [discriminate |].
  intros Heq. injection Heq as <- <-.
  rewrite <- (rev_involutive names), Hrev. reflexivity.
Qed.

(** Rewriting the file at [parent ++ [name]]. *)
Lemma at_node_snoc (parent : list string) (name : string)
  (f : node -> node + Errno) (r : node) (x x' : node) :
  lookup_node (parent ++ [name]) r = inl x ->
  f x = inl x' ->
  exists r',
    at_node (parent ++ [name]) f r = inl r'
    /\ lookup_node (parent ++ [name]) r' = inl x'.
Proof.
  intros Hl Hf. rewrite lookup_node_snoc in Hl.
  destruct (lookup_node parent r) as [[| m u t es]|e] eqn:Hp;
    try discriminate Hl.
  destruct (find name es) as [y|] eqn:Hfind; [| discriminate Hl].
  injection Hl as ->.
  unfold at_node. rewrite rev_app_distr. cbn [rev app]. rewrite rev_involutive.
  set (g := fun es0 : forest =>
              match find name es0 with
              | Some x0 =>
                  match f x0 with
                  | inl x'0 => inl (put name x'0 es0)
                  | inr e => inr e
                  end
              | None => inr ENOENT
              end).
  assert (Hg : g es = inl (put name x' es)).
  { unfold g. rewrite Hfind, Hf. reflexivity. }
  destruct (in_dir_ok parent g r m u t es _ Hp Hg) as [r' Hr'].
  exists r'. split; [exact Hr' |].
  destruct (in_dir_inl parent g r r' Hr')
    as (m1 & u1 & t1 & es1 & es1' & Hl1 & Hg1 & Hl1').
  rewrite Hp in Hl1. injection Hl1 as <- <- <- <-.
  rewrite Hg in Hg1. injection Hg1 as <-.
  rewrite lookup_node_snoc, Hl1', find_put_eq. reflexivity.
Qed.

(** [os.Create] went through: the file is there, empty, a regular file. *)
Lemma Create_inl (path : string) (w : world) (h : handle) :
  fst (fs_Create path w) = inl h ->
  exists parent name m u,
    resolve w path = Some (parent ++ [name])
    /\ h = (path, parent ++ [name])
    /\ lookup_node (parent ++ [name]) (root (snd (fs_Create path w)))
       = inl (RegFile m u (clock w) "")
    /\ (lookup_node (parent ++ [name]) (root w) = inr ENOENT ->
        m = Z.ldiff 438 (umask w) /\ u = euid w)
    /\ (forall m0 u0 t0 d0,
           lookup_node (parent ++ [name]) (root w)
           = inl (RegFile m0 u0 t0 d0) ->
           m = m0 /\ u = u0)
    /\ cwd (snd (fs_Create path w)) = cwd w
    /\ clock (snd (fs_Create path w)) = clock w.
Proof.
  unfold fs_Create. cbv zeta.
  destruct (resolve w path) as [names|] eqn:Hres; [| discriminate].
  destruct (parent_and_name names) as [[parent name]|] eqn:Hpn;
    [| discriminate].
  apply parent_and_name_snoc in Hpn. subst names.
  destruct (in_dir parent (create_in w name) (root w)) as [r'|e] eqn:Hin;
    [| discriminate].
  cbn [fst snd]. intros Hh. injection Hh as <-.
  destruct (in_dir_inl _ _ _ _ Hin) as (m & u & t & es & es' & Hl & Hg & Hl').
  unfold create_in in Hg.
  cbn [with_root root cwd clock logged].
  destruct (find name es) as [[m0 u0 t0 d0 | m0 u0 t0 es0]|] eqn:Hfind.
  - injection Hg as <-. exists parent, name, m0, u0.
    rewrite !lookup_node_snoc, Hl, Hl', Hfind, find_put_eq.
    repeat apply conj; try reflexivity; try discriminate.
    intros m1 u1 t1 d1 Heq. injection Heq as <- <- _ _. split; reflexivity.
  - discriminate Hg.
  - injection Hg as <-. exists parent, name, (Z.ldiff 438 (umask w)), (euid w).
    rewrite !lookup_node_snoc, Hl, Hl', Hfind, find_put_eq.
    repeat apply conj; try reflexivity; try discriminate.
    intros _. split; reflexivity.
Qed.

Lemma lookup_inl (w : world) (path : string) (x : node) :
  lookup w path = inl x ->
  exists names, resolve w path = Some names
                /\ lookup_node names (root w) = inl x.
Proof.
  unfold lookup. destruct (resolve w path) as [names|]; [| discriminate].
  intros Hl. exists names. split; [reflexivity | exact Hl].
Qed.

(** [Edit] where [os.Create] goes through: the call returns nil, and the
    file holds the content. *)
Lemma Edit_writes (fe : LocalFileExplorer) (item content : string)
  (w : world) (h : handle) :
  fst (fs_Create (filepath_Join [RelativePath fe; item]) w) = inl h ->
  exists m u w',
    Edit fe item content w = Ret nil w'
    /\ lookup w' (filepath_Join [RelativePath fe; item])
       = inl (RegFile m u (clock w) content)
    /\ (lookup w (filepath_Join [RelativePath fe; item]) = inr ENOENT ->
        m = Z.ldiff 438 (umask w) /\ u = euid w)
    /\ (forall m0 u0 t0 d0,
           lookup w (filepath_Join [RelativePath fe; item])
           = inl (RegFile m0 u0 t0 d0) ->
           m = m0 /\ u = u0).
Proof.
  intros Hcreate.
  destruct (Create_inl _ _ _ Hcreate)
    as (parent & name & m & u & Hres & -> & Hl & Hnew & Hold & Hcwd & Hclock).
  unfold Edit. rewrite bind_sys.
  change (@os_Create world MemFS_OS) with fs_Create.
  change (@File world MemFS_OS) with handle. rewrite Hcreate.
  unfold defer. rewrite sys_returns.
  change (@io_Copy_string world MemFS_OS) with write_to.
  change (@file_Close world MemFS_OS) with fs_Close.
  unfold write_to. cbn [snd fst].
  destruct (at_node_snoc parent name
              (set_data (clock (snd (fs_Create
                                       (filepath_Join [RelativePath fe; item])
                                       w)))
                        content)
              _ _ (RegFile m u (clock w) content) Hl)
    as (r' & Hat & Hl').
  { rewrite Hclock. reflexivity. }
  rewrite Hat. cbn [fst snd fs_Close].
  exists m, u. eexists. split; [reflexivity |].
  split; [| split].
  - unfold lookup, resolve. cbn [with_root cwd root]. rewrite Hcwd.
    unfold resolve in Hres. rewrite Hres. exact Hl'.
  - unfold lookup. rewrite Hres. exact Hnew.
  - unfold lookup. rewrite Hres. exact Hold.
Qed.

(** [GetContent] of a regular file of at most 1 MiB. *)
Lemma GetContent_reads (fe : LocalFileExplorer) (item : string) (w : world)
  (m u t : Z) (data : string) :
  lookup w (filepath_Join [RelativePath fe; item]) = inl (RegFile m u t data) ->
  Z.of_nat (String.length data) <= 1048576 ->
  value_of (GetContent fe item w) = Some (read_back data, nil).
Proof.
  intros Hl Hsize. destruct (lookup_inl _ _ _ Hl) as (names & Hres & Hnode).
  unfold GetContent. cbv zeta. rewrite bind_sys.
  change (@os_Stat world MemFS_OS) with fs_Stat.
  unfold fs_Stat, stat_as. cbn [fst snd]. rewrite Hl.
  cbn [Size info_of file_size].
  destruct (Z.gtb_spec (Z.of_nat (String.length data)) (1024 * 1024));
    [lia |].
  rewrite bind_sys. change (@os_Open world MemFS_OS) with fs_Open.
  unfold fs_Open. cbv zeta.
  change (resolve (logged _ w) ?p) with (resolve w p).
  rewrite Hres. cbn [logged root]. rewrite Hnode. cbn [fst snd].
  unfold defer. rewrite bind_sys.
  change (@scan_lines world MemFS_OS) with fs_ScanLines.
  unfold fs_ScanLines. cbn [snd logged root]. rewrite Hnode.
  reflexivity.
Qed.

(** ** What the scanner gives back *)

Lemma append_cons (x : ascii) (a b : string) :
  String x a +:+ b = String x (a +:+ b).
Proof. reflexivity. Qed.

Lemma append_String (a : string) (c : ascii) (b : string) :
  (a +:+ String c EmptyString) +:+ b = a +:+ String c b.
Proof.
  induction a as [|x a IH]; [reflexivity |].
  rewrite !append_cons, IH. reflexivity.
Qed.

Lemma append_empty (a : string) : a +:+ "" = a.
Proof.
  induction a as [|x a IH]; [reflexivity |].
  rewrite append_cons, IH. reflexivity.
Qed.

Lemma length_app (a b : string) :
  String.length (a +:+ b) = (String.length a + String.length b)%nat.
Proof.
  induction a as [|x a IH]; [reflexivity |].
  rewrite append_cons. cbn [String.length]. rewrite IH. reflexivity.
Qed.

Lemma string_of_snoc (l : list ascii) (c : ascii) :
  string_of_list_ascii (l ++ [c])
  = string_of_list_ascii l +:+ String c EmptyString.
Proof.
  induction l as [|x l IH]; [reflexivity |].
  cbn [app string_of_list_ascii]. rewrite IH, append_cons. reflexivity.
Qed.

Lemma substring_last (s : string) :
  s <> "" ->
  exists c, In c (list_ascii_of_string s)
            /\ substring (String.length s - 1) 1 s = String c EmptyString.
Proof.
  induction s as [|a rest IH]; [congruence |]. intros _.
  destruct rest as [|b rest'].
  - exists a. split; [left; reflexivity | reflexivity].
  - destruct IH as (c & Hin & Hsub); [discriminate |].
    exists c. split; [right; exact Hin |].
    cbn [String.length] in *. rewrite Nat.sub_1_r in *. cbn [Nat.pred] in *.
    exact Hsub.
Qed.

Lemma dropCR_none (line : string) :
  Forall (fun c => c <> CR) (list_ascii_of_string line) ->
  dropCR line = line.
Proof.
  intros Hno. unfold dropCR, has_suffix. cbv zeta.
  change (String.length (String (ascii_of_nat 13) "")) with 1%nat.
  destruct (string_dec line "") as [-> | Hne]; [reflexivity |].
  destruct (substring_last line Hne) as (c & Hin & ->).
  rewrite List.Forall_forall in Hno. specialize (Hno c Hin).
  destruct (String.eqb_spec (String c "") (String (ascii_of_nat 13) ""))
    as [Heq | _].
  - injection Heq as ->. contradiction Hno. reflexivity.
  - rewrite andb_false_r. reflexivity.
Qed.

Lemma decode_plain (s : string) :
  forallb (fun c => (byte_of c <? 128) && negb (Ascii.eqb c CR))
          (list_ascii_of_string s) = true ->
  decode_latin1 s = s.
Proof.
  induction s as [|c rest IH]; [reflexivity |].
  cbn [list_ascii_of_string forallb decode_latin1].
  intros Hall. apply andb_prop in Hall as [Hc Hrest].
  apply andb_prop in Hc as [Hlow _].
  unfold decode_byte. cbv zeta. rewrite Hlow. cbn [append].
  rewrite (IH Hrest). reflexivity.
Qed.

Lemma scan_plain (s : string) :
  forall cur : list ascii,
    Forall (fun c => c <> CR) cur ->
    forallb (fun c => (byte_of c <? 128) && negb (Ascii.eqb c CR))
            (list_ascii_of_string s) = true ->
    Z.of_nat (List.length cur + String.length s) < MaxScanTokenSize ->
    match last_byte s with
    | Some c => Ascii.eqb c (ascii_of_nat 10)
    | None => false
    end = false ->
    strings_Join (scan_tokens s cur (Z.of_nat (List.length cur))) LF
    = string_of_list_ascii (rev cur) +:+ s
    /\ (cur <> [] \/ s <> "" ->
        scan_tokens s cur (Z.of_nat (List.length cur)) <> []).
Proof.
  induction s as [|c rest IH]; intros cur Hcur Hall Hlen Hlast.
  - cbn [scan_tokens]. destruct cur as [|x cur'].
    + split; [reflexivity |]. intros [Hc | Hs]; congruence.
    + destruct (Z.geb_spec (Z.of_nat (List.length (x :: cur')))
                           MaxScanTokenSize) as [Hbig | _].
      { cbn [String.length] in Hlen. lia. }
      rewrite rev_append_rev, app_nil_r, append_empty.
      rewrite dropCR_none.
      * split; [reflexivity | discriminate].
      * rewrite list_ascii_of_string_of_list_ascii.
        apply Forall_rev. exact Hcur.
  - cbn [list_ascii_of_string forallb] in Hall.
    apply andb_prop in Hall as [Hc Hrest].
    apply andb_prop in Hc as [_ HnoCR].
    cbn [String.length] in Hlen.
    assert (Hlast' : match last_byte rest with
                     | Some c0 => Ascii.eqb c0 (ascii_of_nat 10)
                     | None => false
                     end = false).
    { destruct rest as [|b rest']; [reflexivity | exact Hlast]. }
    cbn [scan_tokens].
    destruct (Ascii.eqb c (ascii_of_nat 10)) eqn:Hnl.
    + apply Ascii.eqb_eq in Hnl. subst c.
      destruct (Z.geb_spec (Z.of_nat (List.length cur)) MaxScanTokenSize)
        as [Hbig | _]; [lia |].
      assert (Hne : rest <> "").
      { intros ->. cbn in Hlast. discriminate Hlast. }
      destruct (IH [] (List.Forall_nil _) Hrest) as [Hjoin Hsome];
        [cbn [List.length]; lia | exact Hlast' |].
      cbn [List.length] in Hjoin, Hsome. change (Z.of_nat 0) with 0 in *.
      specialize (Hsome (or_intror Hne)).
      rewrite rev_append_rev, app_nil_r, dropCR_none.
      2: { rewrite list_ascii_of_string_of_list_ascii.
           apply Forall_rev. exact Hcur. }
      split; [| discriminate].
      destruct (scan_tokens rest [] 0) as [|t ts]; [congruence |].
      cbn [strings_Join]. cbn [strings_Join] in Hjoin. rewrite Hjoin.
      cbn [rev string_of_list_ascii append]. unfold LF.
      cbn [append]. reflexivity.
    + assert (HcCR : c <> CR).
      { intros ->. rewrite Ascii.eqb_refl in HnoCR. discriminate HnoCR. }
      replace (Z.of_nat (List.length cur) + 1)
        with (Z.of_nat (List.length (c :: cur)))
        by (cbn [List.length]; lia).
      destruct (IH (c :: cur)) as [Hjoin Hsome];
        [constructor; assumption | exact Hrest
        | cbn [List.length]; lia | exact Hlast' |].
      split.
      * rewrite Hjoin. cbn [rev]. rewrite string_of_snoc, append_String.
        reflexivity.
      * intros _. apply Hsome. left. discriminate.
Qed.

(** The same bytes with a newline after them: the scanner gives the same
    lines, so the newline is not in what is joined. *)
Lemma scan_final_newline (s : string) :
  forall cur : list ascii,
    Forall (fun c => c <> CR) cur ->
    forallb (fun c => (byte_of c <? 128) && negb (Ascii.eqb c CR))
            (list_ascii_of_string s) = true ->
    Z.of_nat (List.length cur + String.length s) < MaxScanTokenSize ->
    strings_Join (scan_tokens (s +:+ LF) cur (Z.of_nat (List.length cur))) LF
    = string_of_list_ascii (rev cur) +:+ s
    /\ scan_tokens (s +:+ LF) cur (Z.of_nat (List.length cur)) <> [].
Proof.
  induction s as [|c rest IH]; intros cur Hcur Hall Hlen.
  - change ("" +:+ LF) with LF. unfold LF. cbn [scan_tokens].
    rewrite Ascii.eqb_refl.
    destruct (Z.geb_spec (Z.of_nat (List.length cur)) MaxScanTokenSize)
      as [Hbig | _]; [cbn [String.length] in Hlen; lia |].
    rewrite rev_append_rev, app_nil_r, append_empty, dropCR_none.
    + split; [reflexivity | discriminate].
    + rewrite list_ascii_of_string_of_list_ascii.
      apply Forall_rev. exact Hcur.
  - cbn [list_ascii_of_string forallb] in Hall.
    apply andb_prop in Hall as [Hc Hrest].
    apply andb_prop in Hc as [_ HnoCR].
    cbn [String.length] in Hlen.
    rewrite append_cons. cbn [scan_tokens].
    destruct (Ascii.eqb c (ascii_of_nat 10)) eqn:Hnl.
    + apply Ascii.eqb_eq in Hnl. subst c.
      destruct (Z.geb_spec (Z.of_nat (List.length cur)) MaxScanTokenSize)
        as [Hbig | _]; [lia |].
      destruct (IH [] (List.Forall_nil _) Hrest) as [Hjoin Hsome];
        [cbn [List.length]; lia |].
      cbn [List.length] in Hjoin, Hsome. change (Z.of_nat 0) with 0 in *.
      rewrite rev_append_rev, app_nil_r, dropCR_none.
      2: { rewrite list_ascii_of_string_of_list_ascii.
           apply Forall_rev. exact Hcur. }
      split; [| discriminate].
      destruct (scan_tokens (rest +:+ LF) [] 0) as [|t ts]; [congruence |].
      cbn [strings_Join]. cbn [strings_Join] in Hjoin. rewrite Hjoin.
      cbn [rev string_of_list_ascii]. unfold LF.
      rewrite !append_cons. reflexivity.
    + assert (HcCR : c <> CR).
      { intros ->. rewrite Ascii.eqb_refl in HnoCR. discriminate HnoCR. }
      replace (Z.of_nat (List.length cur) + 1)
        with (Z.of_nat (List.length (c :: cur)))
        by (cbn [List.length]; lia).
      destruct (IH (c :: cur)) as [Hjoin Hsome];
        [constructor; assumption | exact Hrest
        | cbn [List.length]; lia |].
      split; [| exact Hsome].
      rewrite Hjoin. cbn [rev]. rewrite string_of_snoc, append_String.
      reflexivity.
Qed.

Lemma decode_app (a b : string) :
  decode_latin1 (a +:+ b) = decode_latin1 a +:+ decode_latin1 b.
Proof.
  induction a as [|c a IH]; [reflexivity |].
  rewrite append_cons. cbn [decode_latin1]. rewrite IH.
  unfold decode_byte. cbv zeta.
  destruct (byte_of c <? 128); rewrite !append_cons; reflexivity.
Qed.

Lemma read_back_plain (content : string) :
  plain_text content = true -> read_back content = content.
Proof.
  unfold plain_text. intros Hp.
  apply andb_prop in Hp as [Hp Hlast]. apply andb_prop in Hp as [Hall Hlen].
  apply negb_true_iff in Hlast. apply Z.ltb_lt in Hlen.
  unfold read_back. rewrite (decode_plain content Hall).
  destruct (scan_plain content [] (List.Forall_nil _) Hall) as [Hjoin _];
    [cbn [List.length]; lia | exact Hlast |].
  exact Hjoin.
Qed.

(** X17.  On the in-memory file system, where [os.Create] of the joined path
    goes through: [Edit] returns nil, and [GetContent] of the same item then
    returns the content as it was written, for content of bytes below 128,
    without carriage return, shorter than 64 KiB and not ending in a
    newline. *)
Theorem Edit_then_GetContent_gives_plain_text_back
  (fe : LocalFileExplorer) (item content : string) (w : world) (h : handle) :
  fst (fs_Create (filepath_Join [RelativePath fe; item]) w) = inl h ->
  plain_text content = true ->
  value_of (Edit fe item content w) = Some nil
  /\ value_of (GetContent fe item (world_of (Edit fe item content w)))
     = Some (content, nil).
Proof.
  intros Hcreate Hplain.
  destruct (Edit_writes fe item content w h Hcreate)
    as (m & u & w' & Hrun & Hl & _).
  rewrite Hrun. cbn [value_of world_of]. split; [reflexivity |].
  rewrite (GetContent_reads fe item w' m u (clock w) content Hl).
  - rewrite (read_back_plain content Hplain). reflexivity.
  - unfold plain_text in Hplain.
    apply andb_prop in Hplain as [Hp _]. apply andb_prop in Hp as [_ Hlen].
    apply Z.ltb_lt in Hlen. unfold MaxScanTokenSize in Hlen. lia.
Qed.

(** X18.  A newline at the end is lost: content written with one newline
    after it is read back without that newline. *)
Theorem Edit_then_GetContent_drops_a_final_newline
  (fe : LocalFileExplorer) (item content : string) (w : world) (h : handle) :
  fst (fs_Create (filepath_Join [RelativePath fe; item]) w) = inl h ->
  forallb (fun c => (byte_of c <? 128) && negb (Ascii.eqb c CR))
          (list_ascii_of_string content) = true ->
  Z.of_nat (String.length content) < MaxScanTokenSize ->
  value_of (GetContent fe item
              (world_of (Edit fe item (content +:+ LF) w)))
  = Some (content, nil).
Proof.
  intros Hcreate Hall Hlen.
  destruct (Edit_writes fe item (content +:+ LF) w h Hcreate)
    as (m & u & w' & Hrun & Hl & _).
  rewrite Hrun. cbn [world_of].
  rewrite (GetContent_reads fe item w' m u (clock w) _ Hl).
  - unfold read_back. rewrite decode_app, (decode_plain content Hall).
    change (decode_latin1 LF) with LF.
    destruct (scan_final_newline content [] (List.Forall_nil _) Hall)
      as [Hjoin _]; [cbn [List.length]; lia |].
    cbn [List.length] in Hjoin. change (Z.of_nat 0) with 0 in Hjoin.
    rewrite Hjoin. reflexivity.
  - rewrite length_app. unfold MaxScanTokenSize in Hlen.
    cbn [LF String.length]. lia.
Qed.

(** X19.  [Edit] where [os.Create] goes through: the file at the joined path
    then holds the content and nothing of what it held before.  A file that
    was there keeps its mode and owner; a new one gets 0666 less the umask
    and the user of the process. *)
Theorem Edit_replaces_the_content
  (fe : LocalFileExplorer) (item content : string) (w : world) (h : handle) :
  fst (fs_Create (filepath_Join [RelativePath fe; item]) w) = inl h ->
  value_of (Edit fe item content w) = Some nil
  /\ exists m u,
      lookup (world_of (Edit fe item content w))
             (filepath_Join [RelativePath fe; item])
      = inl (RegFile m u (clock w) content)
      /\ (lookup w (filepath_Join [RelativePath fe; item]) = inr ENOENT ->
          m = Z.ldiff 438 (umask w) /\ u = euid w)
      /\ (forall m0 u0 t0 d0,
             lookup w (filepath_Join [RelativePath fe; item])
             = inl (RegFile m0 u0 t0 d0) ->
             m = m0 /\ u = u0).
Proof.
  intros Hcreate.
  destruct (Edit_writes fe item content w h Hcreate)
    as (m & u & w' & Hrun & Hl & Hnew & Hold).
  rewrite Hrun. cbn [value_of world_of]. split; [reflexivity |].
  exists m, u. repeat apply conj; assumption.
Qed.

Lemma Open_world (path : string) (w : world) :
  snd (fs_Open path w) = logged (CallOpen path) w.
Proof.
  unfold fs_Open. cbv zeta. destruct (resolve w path) as [names|];
    [destruct (lookup_node names (root w)) |]; reflexivity.
Qed.

(** X20.  [CopyFile] that returns nil onto a path that did not exist: the
    copy has the mode [os.Create] gives, 0666 less the umask, and the user
    of the process as owner, whatever the source's mode and owner are. *)
Theorem CopyFile_gives_a_new_copy_the_mode_of_Create
  (source dest : string) (w : world) :
  lookup w dest = inr ENOENT ->
  value_of (CopyFile source dest w) = Some nil ->
  exists data,
    lookup (world_of (CopyFile source dest w)) dest
    = inl (RegFile (Z.ldiff 438 (umask w)) (euid w) (clock w) data).
Proof.
  intros Hnew. remember (CopyFile source dest w) as o eqn:Ho. revert Ho.
  unfold CopyFile. rewrite bind_sys.
  change (@os_Open world MemFS_OS) with fs_Open.
  change (@os_Create world MemFS_OS) with fs_Create.
  change (@os_Stat world MemFS_OS) with fs_Stat.
  change (@io_Copy world MemFS_OS) with fs_Copy.
  change (@file_Close world MemFS_OS) with fs_Close.
  change (@File world MemFS_OS) with handle.
  rewrite Open_world.
  destruct (fst (fs_Open source w)) as [sf|e0]; [| intros ->; discriminate].
  unfold defer at 1. rewrite bind_sys.
  set (w1 := logged (CallOpen source) w).
  destruct (fst (fs_Create dest w1)) as [df|e1] eqn:Hcreate;
    [| intros ->; cbn; discriminate].
  destruct (Create_inl dest w1 df Hcreate)
    as (parent & name & m & u & Hres & -> & Hl & Hfresh & _ & Hcwd & Hclock).
  destruct Hfresh as [-> ->].
  { unfold lookup in Hnew. unfold resolve in Hres, Hnew.
    cbn [w1 logged cwd] in Hres. rewrite Hres in Hnew. exact Hnew. }
  set (w2 := snd (fs_Create dest w1)) in *.
  unfold defer at 1. rewrite bind_sys.
  unfold fs_Copy.
  destruct (lookup_node (snd sf) (root w2)) as [[ms us ts data | ? ? ? ?]|e2];
    [| intros ->; cbn; discriminate ..].
  destruct (at_node_snoc parent name (set_data (clock w2) data) (root w2)
              _ (RegFile (Z.ldiff 438 (umask w1)) (euid w1) (clock w2) data)
              Hl eq_refl) as (r' & Hat & Hl').
  unfold write_to. cbn [snd fst]. rewrite Hat. unfold nil. cbn [fst snd].
  rewrite bind_sys. unfold fs_Stat. cbn [fst snd].
  destruct (stat_as "stat" source (with_root r' w2)) as [fi|e3];
    [| intros ->; cbn; discriminate].
  intros -> _. exists data. cbn [world_of mret M_ret fs_Close snd].
  unfold lookup, resolve. cbn [logged with_root cwd root].
  unfold resolve in Hres. fold w2. rewrite Hcwd, Hres, Hl', Hclock.
  reflexivity.
Qed.

End Files.

(** The explorer of /srv/data changes the mode of a.txt, then of present. *)
Lemma Chmod_of_two_items :
  Chmod MemFS.data_fe (["a.txt"] ++ ["present"]) "600" false MemFS.w_data
  = sys (os_Chmod (filepath_Join [RelativePath MemFS.data_fe; "present"])
                  (FileMode_of_int 600))
        (world_of (Chmod MemFS.data_fe ["a.txt"] "600" false MemFS.w_data)).
Proof.
  apply (Chmod_flat_goes_on_and_returns_the_last_result
           MemFS.data_fe ["a.txt"] "present" "600" 600 MemFS.w_data).
  vm_compute. reflexivity.
Defined.

(** Two lines written to a new file of /srv/data and read back. *)
Lemma two_lines_come_back :
  value_of (Edit MemFS.data_fe "note.txt" ("hello" +:+ LF +:+ "world")
                 MemFS.w_data)
  = Some nil
  /\ value_of
       (GetContent MemFS.data_fe "note.txt"
          (world_of (Edit MemFS.data_fe "note.txt"
                          ("hello" +:+ LF +:+ "world") MemFS.w_data)))
     = Some ("hello" +:+ LF +:+ "world", nil).
Proof.
  apply (Edit_then_GetContent_gives_plain_text_back
           MemFS.data_fe "note.txt" ("hello" +:+ LF +:+ "world") MemFS.w_data
           ("/srv/data/note.txt", ["srv"; "data"; "note.txt"]));
    vm_compute; reflexivity.
Defined.

(** A line written with its newline is read back without it. *)
Lemma the_newline_of_a_line_is_lost :
  value_of
    (GetContent MemFS.data_fe "note.txt"
       (world_of (Edit MemFS.data_fe "note.txt" ("hello" +:+ LF)
                       MemFS.w_data)))
  = Some ("hello", nil).
Proof.
  apply (Edit_then_GetContent_drops_a_final_newline
           MemFS.data_fe "note.txt" "hello" MemFS.w_data
           ("/srv/data/note.txt", ["srv"; "data"; "note.txt"]));
    vm_compute; reflexivity.
Defined.

(** a.txt of /srv/data, mode 0644 of user 1000, is edited. *)
Lemma a_txt_is_rewritten :
  value_of (Edit MemFS.data_fe "a.txt" "bye" MemFS.w_data) = Some nil
  /\ exists m u,
      MemFS.lookup (world_of (Edit MemFS.data_fe "a.txt" "bye" MemFS.w_data))
                   (filepath_Join [RelativePath MemFS.data_fe; "a.txt"])
      = inl (MemFS.RegFile m u (MemFS.clock MemFS.w_data) "bye")
      /\ (MemFS.lookup MemFS.w_data
                       (filepath_Join [RelativePath MemFS.data_fe; "a.txt"])
          = inr ENOENT ->
          m = Z.ldiff 438 (MemFS.umask MemFS.w_data)
          /\ u = MemFS.euid MemFS.w_data)
      /\ (forall m0 u0 t0 d0,
             MemFS.lookup MemFS.w_data
                          (filepath_Join [RelativePath MemFS.data_fe; "a.txt"])
             = inl (MemFS.RegFile m0 u0 t0 d0) ->
             m = m0 /\ u = u0).
Proof.
  apply (Edit_replaces_the_content MemFS.data_fe "a.txt" "bye" MemFS.w_data
           ("/srv/data/a.txt", ["srv"; "data"; "a.txt"])).
  vm_compute. reflexivity.
Defined.

(** c.txt of /srv/data/b belongs to the superuser; its copy belongs to the
    user of the process. *)
Lemma a_copy_of_the_superusers_file :
  exists data,
    MemFS.lookup
      (world_of (CopyFile "/srv/data/b/c.txt" "/srv/data/copy.txt"
                          MemFS.w_data))
      "/srv/data/copy.txt"
    = inl (MemFS.RegFile (Z.ldiff 438 (MemFS.umask MemFS.w_data))
                         (MemFS.euid MemFS.w_data)
                         (MemFS.clock MemFS.w_data) data).
Proof.
  apply (CopyFile_gives_a_new_copy_the_mode_of_Create
           "/srv/data/b/c.txt" "/srv/data/copy.txt" MemFS.w_data);
    vm_compute; reflexivity.
Defined.

End FeFacts.

(* ===================================================================== *)
(** * Properties of the dispatcher and of the session binder               *)
(* ===================================================================== *)

Module MainFacts.
Import Go Fe Main.

Section DispatcherFacts.
Context {E B : Type} `{!Fe.FileExplorer E B}.
Variable Error : GoError -> string.

(** C7.  An action [apiHandler] has no branch for: the handler returns
    without writing anything, so the request gets no envelope (neither the
    "Not Supported" one nor any other) and no capability is called. *)
Theorem apiHandler_writes_nothing_for_an_unrecognized_action
  (req : GenericReq) (s : SessionInfo E) (h : handling) :
  recognized (Action req) = false ->
  apiHandler Error req s h = Ret () h.
Proof.
  intros Hrec. unfold recognized in Hrec. cbn [existsb] in Hrec.
  repeat match goal with
         | H' : (_ || _) = false |- _ =>
             apply orb_false_elim in H'; destruct H' as [? ?]
         end.
  unfold apiHandler.
  repeat match goal with
         | Hno : String.eqb (Action req) ?a = false |- _ =>
             rewrite Hno; clear Hno
         end.
  reflexivity.
Qed.

(** The four actions that are named and not implemented get the fixed
    envelope, and the explorer is not called. *)
Lemma apiHandler_not_implemented (req : GenericReq) (s : SessionInfo E)
  (h : handling) :
  In (Action req) ["savefile"; "edit"; "compress"; "extract"] ->
  apiHandler Error req s h
  = Ret () (mkHandling (backend h)
                       (written h ++ [JSON 200 DEFAULT_API_ERROR_RESPONSE])).
Proof.
  intros Hin. unfold apiHandler. cbn [In] in Hin.
  destruct Hin as [Ha|[Ha|[Ha|[Ha|[]]]]]; rewrite <- Ha; reflexivity.
Qed.

(** A method call on the nil interface panics. *)
Lemma call_nil_panics {A} (s : SessionInfo E) (method : E -> M B A)
  (h : handling) :
  FileExplorer s = None -> call s method h = Panic h.
Proof. intros Hnil. unfold call. rewrite Hnil. reflexivity. Qed.

(** A request whose branch calls the explorer, handled with a session whose
    explorer is nil: the handler panics before it writes anything. *)
Lemma apiHandler_nil_explorer_panics (req : GenericReq) (s : SessionInfo E)
  (h : handling) :
  FileExplorer s = None ->
  calls_explorer (Action req) = true ->
  apiHandler Error req s h = Panic h.
Proof.
  intros Hnil Hcalls. unfold apiHandler, call, mbind, M_bind. rewrite Hnil.
  unfold calls_explorer in Hcalls. cbn [existsb] in Hcalls.
  repeat match goal with
         | |- context [String.eqb (Action req) ?a] =>
             let Ha := fresh "Ha" in
             destruct (String.eqb (Action req) a) eqn:Ha;
             [try reflexivity;
              apply String.eqb_eq in Ha; rewrite Ha in Hcalls;
              vm_compute in Hcalls; discriminate Hcalls |]
         end.
  vm_compute in Hcalls. discriminate Hcalls.
Qed.

End DispatcherFacts.

Section BinderFacts.
Variable Error : GoError -> string.

Ltac run :=
  unfold Contexter, resolve_session, AuthError, ApiError, BackendConnect,
    explorer_Close, cache_Get, cache_Put, cache_Delete, session_Get,
    session_Set, session_Delete, f_Set, get, c_Data_set, c_Map, c_Redirect,
    c_write, c_SetCookie, on_c, panic, mbind, M_bind, mret, M_ret.

(** One run of the binder, seen from the cache. *)
Lemma Contexter_cache_step (s : state) :
  cache_step (next s) (next (world_of (Contexter Error s)))
             (cache s) (cache (world_of (Contexter Error s))).
Proof.
  run. cbn.
  repeat (case_match; simplify_eq/=).
  all: unfold cache_step; cbn.
  all: first
    [ split; [lia | left; reflexivity]
    | split; [lia | right; left; eexists _, _, _; split; [| reflexivity]; lia]
    | split; [lia | right; right; eexists; reflexivity] ].
Qed.

Lemma inv_cache_step (w w' : World) :
  cache_step (w_next w) (w_next w') (w_cache w) (w_cache w') ->
  binder_inv w -> binder_inv w'.
Proof.
  intros [Hnext Hcache] (Halloc & Hkey & Hdist).
  unfold binder_inv, allocated, keyed_by_user, explorers_distinct.
  destruct Hcache as [Hsame | [(u & p & e & He & Hput) | (key & Hdel)]].
  - (* the cache is as it was *)
    rewrite Hsame. split; [| split].
    + intros k si e0 Hk He0. specialize (Halloc k si e0 Hk He0). lia.
    + exact Hkey.
    + exact Hdist.
  - (* a login put its record *)
    rewrite Hput. split; [| split].
    + intros k si e0 Hk He0. apply lookup_insert_Some in Hk.
      destruct Hk as [[-> <-] | [Hne Hk]].
      * cbn in He0. injection He0 as <-. lia.
      * specialize (Halloc k si e0 Hk He0). lia.
    + intros k si Hk. apply lookup_insert_Some in Hk.
      destruct Hk as [[-> <-] | [Hne Hk]];
        [split; reflexivity | exact (Hkey _ _ Hk)].
    + intros k1 k2 s1 s2 e1 e2 Hk H1 H2 He1 He2.
      apply lookup_insert_Some in H1, H2.
      destruct H1 as [[-> <-] | [Hne1 H1]], H2 as [[-> <-] | [Hne2 H2]].
      * congruence.
      * cbn in He1. injection He1 as <-.
        specialize (Halloc k2 s2 e2 H2 He2). lia.
      * cbn in He2. injection He2 as <-.
        specialize (Halloc k1 s1 e1 H1 He1). lia.
      * exact (Hdist k1 k2 s1 s2 e1 e2 Hk H1 H2 He1 He2).
  - (* an entry was deleted *)
    rewrite Hdel. split; [| split].
    + intros k si e0 Hk He0. apply lookup_delete_Some in Hk as [_ Hk].
      specialize (Halloc k si e0 Hk He0). lia.
    + intros k si Hk. apply lookup_delete_Some in Hk as [_ Hk].
      exact (Hkey _ _ Hk).
    + intros k1 k2 s1 s2 e1 e2 Hk H1 H2 He1 He2.
      apply lookup_delete_Some in H1 as [_ H1], H2 as [_ H2].
      exact (Hdist k1 k2 s1 s2 e1 e2 Hk H1 H2 He1 He2).
Qed.

Lemma inv_init : binder_inv init.
Proof.
  unfold binder_inv, allocated, keyed_by_user, explorers_distinct, init.
  cbn [w_cache]. split; [| split].
  - intros k si e Hk. rewrite lookup_empty in Hk. discriminate.
  - intros k si Hk. rewrite lookup_empty in Hk. discriminate.
  - intros k1 k2 s1 s2 e1 e2 _ Hk. rewrite lookup_empty in Hk. discriminate.
Qed.

Lemma reachable_inv (w : World) : reachable Error w -> binder_inv w.
Proof.
  induction 1 as [| i w Hw IH | key w Hw IH].
  - apply inv_init.
  - eapply inv_cache_step; [| exact IH].
    unfold serve, leave. cbn [w_next w_cache].
    apply (Contexter_cache_step (enter i w)).
  - eapply inv_cache_step; [| exact IH].
    unfold expire. cbn [w_next w_cache]. split; [lia |].
    right. right. eexists. reflexivity.
Qed.

Lemma session_of_Some (w : World) (ck : nat) (si : SessionInfo explorer) :
  session_of w ck = Some si ->
  exists uid,
    default ∅ (w_sessions w !! ck) !! "uid" = Some uid
    /\ w_cache w !! uid = Some si.
Proof.
  unfold session_of, session_record. cbn [enter session cache visit cookie].
  destruct (default ∅ (w_sessions w !! ck) !! "uid") as [uid|];
    [| discriminate].
  destruct (w_cache w !! uid) as [si'|] eqn:Hc; [| discriminate].
  destruct (String.eqb (User si') "" || String.eqb (Password si') "");
    [discriminate |].
  intros Heq. injection Heq as ->. exists uid. split; [reflexivity | exact Hc].
Qed.

(** C1, as amended.  In every state the server can reach (by requests of
    any kind from any browsers, and by entries of the cache running out):
    two session records that sit in the cache under different keys hold
    different explorer instances and belong to different users; and the
    sessions of two browsers hold the same explorer instance exactly when
    they were established with the same user name, for then they are one
    record of the cache: sessions of different user names hold different
    instances. *)
Theorem sessions_share_an_explorer_only_under_one_username (w : World) :
  reachable Error w ->
  (forall k1 k2 s1 s2 e1 e2,
      k1 <> k2 ->
      w_cache w !! k1 = Some s1 -> w_cache w !! k2 = Some s2 ->
      FileExplorer s1 = Some e1 -> FileExplorer s2 = Some e2 ->
      e1 <> e2 /\ User s1 <> User s2)
  /\ (forall c1 c2 s1 s2,
         session_of w c1 = Some s1 -> session_of w c2 = Some s2 ->
         (User s1 = User s2 -> s1 = s2)
         /\ (User s1 <> User s2 ->
             forall e1 e2,
               FileExplorer s1 = Some e1 -> FileExplorer s2 = Some e2 ->
               e1 <> e2)).
Proof.
  intros Hw. destruct (reachable_inv w Hw) as (_ & Hkey & Hdist).
  split.
  - intros k1 k2 s1 s2 e1 e2 Hk H1 H2 He1 He2.
    split; [exact (Hdist k1 k2 s1 s2 e1 e2 Hk H1 H2 He1 He2) |].
    destruct (Hkey _ _ H1) as [-> _], (Hkey _ _ H2) as [-> _]. exact Hk.
  - intros c1 c2 s1 s2 H1 H2.
    destruct (session_of_Some w c1 s1 H1) as (u1 & _ & Hc1).
    destruct (session_of_Some w c2 s2 H2) as (u2 & _ & Hc2).
    destruct (Hkey _ _ Hc1) as [Hu1 _], (Hkey _ _ Hc2) as [Hu2 _].
    split.
    + intros Hsame. rewrite Hu1, Hu2 in Hsame. subst u2. congruence.
    + intros Hother e1 e2 He1 He2.
      apply (Hdist u1 u2 s1 s2 e1 e2); try assumption. congruence.
Qed.

Lemma logout_closes_then_deletes (s : state) (uid : string)
  (si : SessionInfo explorer) (e : explorer) :
  session s !! "uid" = Some uid ->
  cache s !! uid = Some si ->
  String.eqb (User si) "" = false ->
  String.eqb (Password si) "" = false ->
  FileExplorer si = Some e ->
  String.prefix "/logout" (URL_Path (Req (c s))) = true ->
  exists s',
    Contexter Error s = Ret () s'
    /\ trace s' = trace s ++ [Closed e; CacheDelete uid]
    /\ cache s' = delete uid (cache s)
    /\ session s' = delete "uid" (session s).
Proof.
  intros Huid Hc Hu Hp Hfe Hpath.
  run. cbn. rewrite Huid. cbn. rewrite Hc. cbn. rewrite Hu, Hp. cbn.
  rewrite Hfe. cbn. rewrite Hpath, Hfe. cbn.
  eexists. split; [reflexivity |].
  split; [cbn; rewrite <- app_assoc; reflexivity |].
  split; reflexivity.
Qed.

Lemma no_Close_but_at_logout (s : state) :
  String.prefix "/logout" (URL_Path (Req (c s))) = false ->
  exists evs,
    trace (world_of (Contexter Error s)) = trace s ++ evs
    /\ forall e, ~ In (Closed e) evs.
Proof.
  intros Hpath. run. cbn.
  repeat (case_match; simplify_eq/=).
  all: try congruence.
  all: first
    [ exists []; split; [symmetry; apply app_nil_r | intros ? ?; assumption]
    | rewrite <- ?app_assoc; cbn [app]; eexists;
      split; [reflexivity
             | let Hin := fresh "Hin" in
               intros ? Hin; cbn in Hin; intuition discriminate] ].
Qed.

(** C3, as amended.  A request under /logout from a signed session whose
    record holds an explorer: the binder calls Close on that explorer, then
    deletes the cache entry and the session's uid, and nothing else is
    called in between.  On every request that is not under /logout the
    binder calls Close on nothing; and an entry that runs out in the cache
    goes without a call. *)
Theorem logout_closes_the_explorer_before_the_entry_goes :
  (forall (s : state) (uid : string) (si : SessionInfo explorer)
          (e : explorer),
      session s !! "uid" = Some uid ->
      cache s !! uid = Some si ->
      String.eqb (User si) "" = false ->
      String.eqb (Password si) "" = false ->
      FileExplorer si = Some e ->
      String.prefix "/logout" (URL_Path (Req (c s))) = true ->
      exists s',
        Contexter Error s = Ret () s'
        /\ trace s' = trace s ++ [Closed e; CacheDelete uid]
        /\ cache s' = delete uid (cache s)
        /\ session s' = delete "uid" (session s))
  /\ (forall s : state,
         String.prefix "/logout" (URL_Path (Req (c s))) = false ->
         exists evs,
           trace (world_of (Contexter Error s)) = trace s ++ evs
           /\ forall e, ~ In (Closed e) evs)
  /\ (forall (key : string) (w : World),
         w_trace (expire key w) = w_trace w).
Proof.
  split; [exact logout_closes_then_deletes |].
  split; [exact no_Close_but_at_logout | reflexivity].
Qed.

(** The binder run on a state whose session's record in the cache has no
    explorer, on a request not under /logout, the backend accepting the
    record's user and password: a new explorer is connected, the value
    mapped into the request is the record as it came from the cache, and
    nothing is written; the cache is as it was. *)
Lemma lazily_connected_explorer_is_not_mapped
  (s : state) (uid : string) (si : SessionInfo explorer) :
  session s !! "uid" = Some uid ->
  cache s !! uid = Some si ->
  String.eqb (User si) "" = false ->
  String.eqb (Password si) "" = false ->
  FileExplorer si = None ->
  answers s (User si) (Password si) = nil ->
  String.prefix "/logout" (URL_Path (Req (c s))) = false ->
  exists s',
    Contexter Error s = Ret () s'
    /\ trace s' = trace s ++ [Connected (next s) (User si)]
    /\ Mapped (c s') = Some si
    /\ Written (c s') = Written (c s)
    /\ cache s' = cache s.
Proof.
  intros Huid Hc Hu Hp Hfe Hans Hpath.
  run. cbn. rewrite Huid. cbn. rewrite Hc. cbn. rewrite Hu, Hp. cbn.
  rewrite Hfe. cbn. unfold nil in Hans. rewrite Hans. cbn. rewrite Hpath.
  eexists. repeat split.
Qed.

End BinderFacts.

(** alice has logged in from two browsers: one record, one explorer. *)
Lemma two_alices_and_their_one_record :
  (forall k1 k2 s1 s2 e1 e2,
      k1 <> k2 ->
      w_cache two_alices !! k1 = Some s1 ->
      w_cache two_alices !! k2 = Some s2 ->
      FileExplorer s1 = Some e1 -> FileExplorer s2 = Some e2 ->
      e1 <> e2 /\ User s1 <> User s2)
  /\ (forall c1 c2 s1 s2,
         session_of two_alices c1 = Some s1 ->
         session_of two_alices c2 = Some s2 ->
         (User s1 = User s2 -> s1 = s2)
         /\ (User s1 <> User s2 ->
             forall e1 e2,
               FileExplorer s1 = Some e1 -> FileExplorer s2 = Some e2 ->
               e1 <> e2)).
Proof.
  apply (sessions_share_an_explorer_only_under_one_username plain_Error
           two_alices).
  apply reach_serve, reach_serve, reach_init.
Defined.

(** C1 as stated fails.  alice logs in from the browser with cookie 1 and
    again from the browser with cookie 2: the second login puts its record
    under the key "alice", where the record of the first was, and the
    sessions of both browsers are served with that record and its explorer,
    instance 1. *)
Lemma two_logins_as_alice_share_one_explorer :
  reachable plain_Error two_alices
  /\ session_of two_alices 1
     = Some (mkSessionInfo "alice" "secret" (Some 1%nat) "alice")
  /\ session_of two_alices 2
     = Some (mkSessionInfo "alice" "secret" (Some 1%nat) "alice")
  /\ ~ no_two_sessions_share_an_explorer two_alices.
Proof.
  split; [apply reach_serve, reach_serve, reach_init |].
  split; [vm_compute; reflexivity |].
  split; [vm_compute; reflexivity |].
  intros Hclaim.
  apply (Hclaim 1%nat 2%nat
           (mkSessionInfo "alice" "secret" (Some 1%nat) "alice")
           (mkSessionInfo "alice" "secret" (Some 1%nat) "alice") 1%nat 1%nat);
    try reflexivity; [discriminate | vm_compute; reflexivity ..].
Qed.

(** alice, logged in, asks for /logout. *)
Lemma alice_logs_out :
  exists s',
    Contexter plain_Error (enter (visit 1 "GET" "/logout") alice_in)
    = Ret () s'
    /\ trace s'
       = trace (enter (visit 1 "GET" "/logout") alice_in)
         ++ [Closed 0%nat; CacheDelete "alice"]
    /\ cache s'
       = delete "alice" (cache (enter (visit 1 "GET" "/logout") alice_in))
    /\ session s'
       = delete "uid" (session (enter (visit 1 "GET" "/logout") alice_in)).
Proof.
  refine (proj1 (logout_closes_the_explorer_before_the_entry_goes plain_Error)
            (enter (visit 1 "GET" "/logout") alice_in) "alice"
            (mkSessionInfo "alice" "secret" (Some 0%nat) "alice") 0%nat
            _ _ _ _ _ _); vm_compute; reflexivity.
Defined.

(** C3 as stated fails.  alice is logged in, her record holds explorer 0.
    When alice logs in again from another browser, the record is replaced
    by one that holds explorer 1, and explorer 0 has not been closed.  When
    instead her entry runs out in the cache, the record is gone and
    explorer 0 has not been closed. *)
Lemma a_replaced_or_expired_record_leaves_its_explorer_open :
  ~ closed_before_discarded
      alice_in (serve plain_Error (login 2 "alice" "secret") alice_in)
  /\ ~ closed_before_discarded alice_in (expire "alice" alice_in).
Proof.
  split; intros Hclaim.
  - specialize (Hclaim "alice"
                  (mkSessionInfo "alice" "secret" (Some 0%nat) "alice")
                  0%nat).
    assert (Hin : In (Closed 0%nat)
                     (w_trace (serve plain_Error (login 2 "alice" "secret")
                                     alice_in))).
    { apply Hclaim; [vm_compute; reflexivity | reflexivity |].
      vm_compute. intros Heq. discriminate Heq. }
    vm_compute in Hin. intuition discriminate.
  - specialize (Hclaim "alice"
                  (mkSessionInfo "alice" "secret" (Some 0%nat) "alice")
                  0%nat).
    assert (Hin : In (Closed 0%nat) (w_trace (expire "alice" alice_in))).
    { apply Hclaim; [vm_compute; reflexivity | reflexivity |].
      vm_compute. intros Heq. discriminate Heq. }
    vm_compute in Hin. intuition discriminate.
Qed.

(** A request for the action "getContent", which [apiHandler] does not
    know: nothing is written. *)
Lemma getContent_gets_no_envelope :
  apiHandler plain_Error
    (mkReq "getContent" "" "a.txt" "" [] "" "" "" false)
    (mkSessionInfo "user" "secret" (Some MemFS.data_fe) "user")
    (mkHandling MemFS.w0 [])
  = Ret () (mkHandling MemFS.w0 []).
Proof.
  apply (apiHandler_writes_nothing_for_an_unrecognized_action plain_Error).
  reflexivity.
Defined.

(** The browser with cookie 1 is signed in as alice, whose record has no
    explorer, and posts to /api/_: explorer 0 is connected, and the session
    mapped into the request has none. *)
Lemma alice_unconnected_posts :
  exists s',
    Contexter plain_Error (enter (visit 1 "POST" "/api/_") alice_unconnected)
    = Ret () s'
    /\ trace s'
       = trace (enter (visit 1 "POST" "/api/_") alice_unconnected)
         ++ [Connected
               (next (enter (visit 1 "POST" "/api/_") alice_unconnected))
               (User (mkSessionInfo "alice" "secret" (@None explorer) "alice"))]
    /\ Mapped (c s') = Some (mkSessionInfo "alice" "secret" None "alice")
    /\ Written (c s')
       = Written (c (enter (visit 1 "POST" "/api/_") alice_unconnected))
    /\ cache s' = cache (enter (visit 1 "POST" "/api/_") alice_unconnected).
Proof.
  refine (lazily_connected_explorer_is_not_mapped plain_Error
            (enter (visit 1 "POST" "/api/_") alice_unconnected) "alice"
            (mkSessionInfo "alice" "secret" None "alice")
            _ _ _ _ _ _ _); vm_compute; reflexivity.
Defined.

(** And the handler of that request, called with the mapped session for
    the action "list", panics on the nil explorer. *)
Example the_handler_then_panics :
  forall (B : Type) (F : Fe.FileExplorer explorer B) (h : handling (B:=B)),
    apiHandler plain_Error (mkReq "list" "/" "" "" [] "" "" "" false)
               (mkSessionInfo "alice" "secret" None "alice") h
    = Panic h.
Proof.
  intros. apply apiHandler_nil_explorer_panics; reflexivity.
Qed.

(** ** The dispatcher's answers *)

Section DispatcherMore.
Context {E B : Type} `{!Fe.FileExplorer E B}.
Variable Error : GoError -> string.

Lemma respond_once (s : SessionInfo E) (method : E -> M B error)
  (h : handling) :
  match (err ← call s method; respond Error err) h with
  | Ret _ h' => answered_once Error h h'
  | Panic h' => written h' = written h
  end.
Proof.
  unfold call, mbind, M_bind.
  destruct (FileExplorer s) as [e|]; [| reflexivity].
  destruct (method e (backend h)) as [[err|] b|b]; cbn.
  - eexists. split; [reflexivity |]. right. right. right. eexists. reflexivity.
  - eexists. split; [reflexivity |]. right. left. reflexivity.
  - reflexivity.
Qed.

Lemma list_once (s : SessionInfo E)
  (method : E -> M B (list ListDirEntry * error)) (h : handling) :
  match (r ← call s method;
         match snd r with
         | None => c_JSON 200 (ListDirResp (fst r))
         | Some e => ApiErrorResponse Error 400 e
         end) h with
  | Ret _ h' => answered_once Error h h'
  | Panic h' => written h' = written h
  end.
Proof.
  unfold call, mbind, M_bind.
  destruct (FileExplorer s) as [e|]; [| reflexivity].
  destruct (method e (backend h)) as [[ls [err|]] b|b]; cbn.
  - eexists. split; [reflexivity |]. right. right. right. eexists. reflexivity.
  - eexists. split; [reflexivity |]. left. eexists. reflexivity.
  - reflexivity.
Qed.

Lemma fixed_once (h : handling (B:=B)) :
  match c_JSON 200 DEFAULT_API_ERROR_RESPONSE h with
  | Ret _ h' => answered_once Error h h'
  | Panic h' => written h' = written h
  end.
Proof.
  cbn. eexists. split; [reflexivity |]. right. right. left. reflexivity.
Qed.

(** X11.  Whatever the request, the session and the explorer's answer:
    [apiHandler] writes one envelope when the action is one it has a branch
    for and none when it is not, and nothing when a call on the explorer
    panics.  The envelope is a listing, the empty success or "Not
    Supported", each with status 200, or a failure with status 400 and the
    error's text; no other status is written. *)
Theorem apiHandler_answers_once_or_not_at_all (req : GenericReq)
  (s : SessionInfo E) (h : handling) :
  match apiHandler Error req s h with
  | Ret _ h' =>
      if recognized (Action req) then answered_once Error h h'
      else written h' = written h
  | Panic h' => written h' = written h
  end.
Proof.
  unfold apiHandler, recognized. cbn [existsb].
  repeat match goal with
         | |- context [String.eqb (Action req) ?a] =>
             destruct (String.eqb (Action req) a);
             [cbn [orb];
              first [apply list_once | apply respond_once | apply fixed_once]
             |]
         end.
  reflexivity.
Qed.

(** X12.  The actions savefile, edit, compress and extract are answered with
    status 200 and the envelope of a failure with the message "Not
    Supported"; the explorer is not called, so the backend is as it was and
    a session without an explorer is answered too. *)
Theorem named_but_not_implemented_actions_answer_Not_Supported
  (req : GenericReq) (s : SessionInfo E) (h : handling) :
  In (Action req) ["savefile"; "edit"; "compress"; "extract"] ->
  apiHandler Error req s h
  = Ret () (mkHandling (backend h)
              (written h
               ++ [JSON 200 (GenericResp (mkBody false "Not Supported"))])).
Proof.
  intros Hin. unfold apiHandler. cbn [In] in Hin.
  destruct Hin as [Ha|[Ha|[Ha|[Ha|[]]]]]; rewrite <- Ha; reflexivity.
Qed.

End DispatcherMore.

(** A request to compress, from a session without an explorer. *)
Lemma compress_is_not_supported :
  apiHandler plain_Error
    (mkReq "compress" "" "" "" ["a.txt"] "" "" "" false)
    (mkSessionInfo "user" "secret" (@None LocalFileExplorer) "user")
    (mkHandling MemFS.w0 [])
  = Ret () (mkHandling MemFS.w0
              ([] ++ [JSON 200 (GenericResp (mkBody false "Not Supported"))])).
Proof.
  apply (named_but_not_implemented_actions_answer_Not_Supported plain_Error
           (mkReq "compress" "" "" "" ["a.txt"] "" "" "" false)
           (mkSessionInfo "user" "secret" (@None LocalFileExplorer) "user")
           (mkHandling MemFS.w0 [])).
  simpl. tauto.
Defined.

(** ** The binder, run by run *)

Section BinderRuns.
Variable Error : GoError -> string.

Lemma bind_Ret {A B} (m : M state A) (k : A -> M state B) (s s' : state)
  (a : A) :
  m s = Ret a s' -> (m ≫= k) s = k a s'.
Proof. intros H. unfold mbind, M_bind. rewrite H. reflexivity. Qed.

Ltac fields :=
  cbn [c cache session f answers next trace Req Data Mapped Written Cookies].
Ltac step := erewrite bind_Ret; [| reflexivity]; fields.

Lemma AuthError_returns (s : state) (err : GoError) :
  exists s',
    AuthError Error err s = Ret () s'
    /\ Req (c s') = Req (c s)
    /\ Written (c s') = Written (c s) ++ [Redirect "/login"]
    /\ Mapped (c s') = Mapped (c s)
    /\ cache s' = cache s
    /\ session s' = session s
    /\ next s' = next s
    /\ trace s' = trace s
    /\ f s' !! "ErrorMsg" = Some (Error err)
    /\ Data (c s') !! "ErrorMsg" = Some (VString (Error err)).
Proof.
  destruct s as [[rq d mp wr ck] ca se fl an nx tr].
  unfold AuthError. do 4 step.
  eexists. split; [reflexivity |]. unfold c_Redirect, c_write, on_c. fields.
  repeat apply conj; try reflexivity; apply lookup_insert_eq.
Qed.

(** The first half of the binder on a request that is not signed: it
    returns false and leaves the state alone. *)
Lemma resolve_unsigned (s : state) :
  session_record s = None ->
  exists si, resolve_session Error (session s !! "uid") s = Ret (false, si) s.
Proof.
  unfold session_record, resolve_session. intros H.
  destruct (session s !! "uid") as [uid|]; [| eexists; reflexivity].
  unfold cache_Get, mbind, M_bind.
  destruct (cache s !! uid) as [si|]; [| eexists; reflexivity].
  destruct (String.eqb (User si) "" || String.eqb (Password si) "");
    [eexists; reflexivity | discriminate H].
Qed.

Lemma Contexter_unsigned_then (s s1 : state) (si : SessionInfo explorer) :
  resolve_session Error (session s !! "uid") s = Ret (false, si) s1 ->
  Contexter Error s
  = (if String.prefix "/login" (URL_Path (Req (c s1))) then
       if String.eqb (Method (Req (c s1))) "POST" then
         (r ← BackendConnect (Query (Req (c s1)) "username")
                             (Query (Req (c s1)) "password");
          match snd r with
          | Some err => AuthError Error err
          | None =>
              let uid := Query (Req (c s1)) "username" in
              let sessionInfo :=
                mkSessionInfo uid (Query (Req (c s1)) "password") (fst r) uid in
              _ ← cache_Put uid sessionInfo;
              _ ← session_Set "uid" uid;
              _ ← c_Data_set "User" (VString (User sessionInfo));
              _ ← c_Map sessionInfo;
              c_Redirect "/"
          end) s1
       else Ret () s1
     else c_Redirect "/login" s1).
Proof.
  intros H. unfold Contexter. unfold session_Get at 1.
  unfold mbind at 1, M_bind at 1. unfold mbind at 1, M_bind at 1.
  rewrite H. cbn [fst snd negb].
  unfold get, mbind, M_bind. cbn.
  destruct (String.prefix "/login" (URL_Path (Req (c s1)))); [| reflexivity].
  destruct (String.eqb (Method (Req (c s1))) "POST"); reflexivity.
Qed.

Lemma Contexter_unsigned (s : state) (si : SessionInfo explorer) :
  resolve_session Error (session s !! "uid") s = Ret (false, si) s ->
  Contexter Error s
  = (let path := URL_Path (Req (c s)) in
     if String.prefix "/login" path then
       if String.eqb (Method (Req (c s))) "POST" then
         (r ← BackendConnect (Query (Req (c s)) "username")
                             (Query (Req (c s)) "password");
          match snd r with
          | Some err => AuthError Error err
          | None =>
              let uid := Query (Req (c s)) "username" in
              let sessionInfo :=
                mkSessionInfo uid (Query (Req (c s)) "password") (fst r) uid in
              _ ← cache_Put uid sessionInfo;
              _ ← session_Set "uid" uid;
              _ ← c_Data_set "User" (VString (User sessionInfo));
              _ ← c_Map sessionInfo;
              c_Redirect "/"
          end) s
       else Ret () s
     else c_Redirect "/login" s).
Proof. apply Contexter_unsigned_then. Qed.

Lemma unsigned_redirect (s : state) :
  session_record s = None ->
  String.prefix "/login" (URL_Path (Req (c s))) = false ->
  Contexter Error s
  = Ret () (with_c (mkContext (Req (c s)) (Data (c s)) (Mapped (c s))
                              (Written (c s) ++ [Redirect "/login"])
                              (Cookies (c s))) s).
Proof.
  intros Hrec Hpath. destruct (resolve_unsigned s Hrec) as [si Hsi].
  rewrite (Contexter_unsigned s si Hsi). cbn zeta. rewrite Hpath. reflexivity.
Qed.

(** X1.  A request that is not signed (no uid in the session, no record in
    the cache under it, or a record with an empty user or password) and
    whose path is not under /login is redirected to /login; the cache, the
    session, the heap and the trace are as they were, and nothing is mapped. *)
Theorem unsigned_request_is_sent_to_login (s : state) :
  session_record s = None ->
  String.prefix "/login" (URL_Path (Req (c s))) = false ->
  Contexter Error s
  = Ret () (with_c (mkContext (Req (c s)) (Data (c s)) (Mapped (c s))
                              (Written (c s) ++ [Redirect "/login"])
                              (Cookies (c s))) s).
Proof.
  intros Hrec Hpath. destruct (resolve_unsigned s Hrec) as [si Hsi].
  rewrite (Contexter_unsigned s si Hsi). cbn zeta. rewrite Hpath. reflexivity.
Qed.

(** X2.  A request that is not signed, under /login and with a method other
    than POST, passes the binder untouched: nothing is written, so the
    login page's own handler answers. *)
Theorem unsigned_login_page_passes (s : state) :
  session_record s = None ->
  String.prefix "/login" (URL_Path (Req (c s))) = true ->
  String.eqb (Method (Req (c s))) "POST" = false ->
  Contexter Error s = Ret () s.
Proof.
  intros Hrec Hpath Hm. destruct (resolve_unsigned s Hrec) as [si Hsi].
  rewrite (Contexter_unsigned s si Hsi). cbn zeta. rewrite Hpath, Hm. reflexivity.
Qed.

Lemma login_accepted (s : state) :
  session_record s = None ->
  String.prefix "/login" (URL_Path (Req (c s))) = true ->
  String.eqb (Method (Req (c s))) "POST" = true ->
  answers s (Query (Req (c s)) "username") (Query (Req (c s)) "password") = nil ->
  exists s',
    Contexter Error s = Ret () s'
    /\ cache s'
       = <[Query (Req (c s)) "username" :=
             mkSessionInfo (Query (Req (c s)) "username")
                           (Query (Req (c s)) "password")
                           (Some (next s))
                           (Query (Req (c s)) "username")]> (cache s)
    /\ session s' = <["uid" := Query (Req (c s)) "username"]> (session s)
    /\ next s' = S (next s)
    /\ trace s'
       = trace s ++ [Connected (next s) (Query (Req (c s)) "username");
                     CachePut (Query (Req (c s)) "username")]
    /\ Mapped (c s') = cache s' !! Query (Req (c s)) "username"
    /\ Written (c s') = Written (c s) ++ [Redirect "/"].
Proof.
  intros Hrec Hpath Hm Hans. destruct (resolve_unsigned s Hrec) as [si Hsi].
  rewrite (Contexter_unsigned s si Hsi). cbn zeta. rewrite Hpath, Hm.
  erewrite bind_Ret;
    [| unfold BackendConnect; unfold nil in Hans; rewrite Hans; reflexivity].
  cbn [snd fst nil]. cbn zeta. do 4 step.
  eexists. split; [reflexivity |]. fields.
  repeat apply conj; try reflexivity.
  - rewrite <- app_assoc. reflexivity.
  - rewrite lookup_insert_eq. reflexivity.
Qed.

(** X3.  A POST under /login that is not signed, the backend accepting the
    posted user and password: a new explorer is connected, the cache gets
    under the user name a record with the name, the password and that
    explorer, the session's uid becomes the user name, the record is mapped
    into the request and the answer is a redirect to /. *)
Theorem accepted_login_binds_a_new_explorer (s : state) :
  session_record s = None ->
  String.prefix "/login" (URL_Path (Req (c s))) = true ->
  String.eqb (Method (Req (c s))) "POST" = true ->
  answers s (Query (Req (c s)) "username") (Query (Req (c s)) "password") = nil ->
  exists s',
    Contexter Error s = Ret () s'
    /\ cache s'
       = <[Query (Req (c s)) "username" :=
             mkSessionInfo (Query (Req (c s)) "username")
                           (Query (Req (c s)) "password")
                           (Some (next s))
                           (Query (Req (c s)) "username")]> (cache s)
    /\ session s' = <["uid" := Query (Req (c s)) "username"]> (session s)
    /\ next s' = S (next s)
    /\ trace s'
       = trace s ++ [Connected (next s) (Query (Req (c s)) "username");
                     CachePut (Query (Req (c s)) "username")]
    /\ Mapped (c s') = cache s' !! Query (Req (c s)) "username"
    /\ Written (c s') = Written (c s) ++ [Redirect "/"].
Proof.
  intros Hrec Hpath Hm Hans. destruct (resolve_unsigned s Hrec) as [si Hsi].
  rewrite (Contexter_unsigned s si Hsi). cbn zeta. rewrite Hpath, Hm.
  erewrite bind_Ret;
    [| unfold BackendConnect; unfold nil in Hans; rewrite Hans; reflexivity].
  cbn [snd fst nil]. cbn zeta. do 4 step.
  eexists. split; [reflexivity |]. fields.
  repeat apply conj; try reflexivity.
  - rewrite <- app_assoc. reflexivity.
  - rewrite lookup_insert_eq. reflexivity.
Qed.

(** X4.  A POST under /login that is not signed, the backend refusing: the
    cache, the session and the mapped value are as they were; the error's
    text is in the flash and in the page data under ErrorMsg, and the answer
    is a redirect to /login. *)
Theorem refused_login_changes_no_binding (s : state) (err : GoError) :
  session_record s = None ->
  String.prefix "/login" (URL_Path (Req (c s))) = true ->
  String.eqb (Method (Req (c s))) "POST" = true ->
  answers s (Query (Req (c s)) "username") (Query (Req (c s)) "password")
  = Some err ->
  exists s',
    Contexter Error s = Ret () s'
    /\ cache s' = cache s
    /\ session s' = session s
    /\ Mapped (c s') = Mapped (c s)
    /\ f s' !! "ErrorMsg" = Some (Error err)
    /\ Data (c s') !! "ErrorMsg" = Some (VString (Error err))
    /\ Written (c s') = Written (c s) ++ [Redirect "/login"]
    /\ trace s' = trace s ++ [Refused (next s) (Query (Req (c s)) "username")].
Proof.
  intros Hrec Hpath Hm Hans. destruct (resolve_unsigned s Hrec) as [si Hsi].
  rewrite (Contexter_unsigned s si Hsi). cbn zeta. rewrite Hpath, Hm.
  erewrite bind_Ret; [| unfold BackendConnect; rewrite Hans; reflexivity].
  cbn [snd fst].
  edestruct AuthError_returns
    as (s1 & Hauth & _ & Hw & Hmp & Hc & Hs & _ & Ht & Hf & Hd).
  rewrite Hauth. eexists. split; [reflexivity |].
  rewrite Hw, Hmp, Hc, Hs, Ht, Hf, Hd. fields.
  repeat apply conj; reflexivity.
Qed.

Lemma session_record_Some (s : state) (si : SessionInfo explorer) :
  session_record s = Some si ->
  exists uid,
    session s !! "uid" = Some uid /\ cache s !! uid = Some si
    /\ String.eqb (User si) "" || String.eqb (Password si) "" = false.
Proof.
  unfold session_record. intros Hrec.
  destruct (session s !! "uid") as [uid|] eqn:Huid; [| discriminate].
  destruct (cache s !! uid) as [si'|] eqn:Hc; [| discriminate].
  destruct (String.eqb (User si') "" || String.eqb (Password si') "") eqn:Hup;
    [discriminate |].
  injection Hrec as ->. exists uid. repeat split; assumption.
Qed.

(** The first half of the binder on a signed request. *)
Lemma resolve_signed (s : state) (si : SessionInfo explorer) :
  session_record s = Some si ->
  resolve_session Error (session s !! "uid") s
  = match FileExplorer si with
    | Some _ => Ret (true, si) (mapped si s)
    | None =>
        (r ← BackendConnect (User si) (Password si);
         let sessionInfo :=
           mkSessionInfo (User si) (Password si) (fst r) (Uid si) in
         match snd r with
         | Some err =>
             path ← get (fun s => URL_Path (Req (c s)));
             _ ← (if IsApiPath path then ApiError Error 500 err
                  else AuthError Error err);
             mret (false, sessionInfo)
         | None => mret (true, sessionInfo)
         end) (mapped si s)
    end.
Proof.
  intros Hrec. destruct (session_record_Some s si Hrec) as (uid & Huid & Hc & Hup).
  unfold resolve_session. rewrite Huid.
  unfold cache_Get. unfold mbind at 1, M_bind at 1. rewrite Hc, Hup.
  destruct (FileExplorer si); reflexivity.
Qed.

(** The second half of the binder after a first half that found the
    request signed. *)
Lemma Contexter_signed (s s1 : state) (si : SessionInfo explorer) :
  resolve_session Error (session s !! "uid") s = Ret (true, si) s1 ->
  Contexter Error s
  = (if String.prefix "/logout" (URL_Path (Req (c s1))) then
       (_ ← match FileExplorer si with
            | None => panic
            | Some e => explorer_Close e
            end;
        _ ← session_Delete "uid";
        _ ← match session s !! "uid" with
            | None => panic
            | Some uid => cache_Delete uid
            end;
        _ ← c_SetCookie "MacaronSession" "";
        c_Redirect "/login") s1
     else Ret () s1).
Proof.
  intros H. unfold Contexter. unfold session_Get at 1.
  unfold mbind at 1, M_bind at 1. unfold mbind at 1, M_bind at 1.
  rewrite H. cbn [fst snd negb].
  unfold get. unfold mbind at 1, M_bind at 1.
  destruct (String.prefix "/logout" (URL_Path (Req (c s1)))); reflexivity.
Qed.

Lemma Contexter_unsigned_after (s s1 : state) (si : SessionInfo explorer) :
  resolve_session Error (session s !! "uid") s = Ret (false, si) s1 ->
  String.prefix "/login" (URL_Path (Req (c s1))) = false ->
  Contexter Error s = c_Redirect "/login" s1.
Proof.
  intros H Hpath. unfold Contexter. unfold session_Get at 1.
  unfold mbind at 1, M_bind at 1. unfold mbind at 1, M_bind at 1.
  rewrite H. cbn [fst snd negb].
  unfold get. unfold mbind at 1, M_bind at 1. rewrite Hpath. reflexivity.
Qed.

(** X5.  A signed request whose record holds an explorer, not under /logout:
    the binder connects nothing, writes nothing and leaves the cache, the
    session and the trace alone; it sets the page's User and maps the cached
    record, explorer included. *)
Theorem signed_request_reuses_the_cached_explorer (s : state)
  (si : SessionInfo explorer) (e : explorer) :
  session_record s = Some si ->
  FileExplorer si = Some e ->
  String.prefix "/logout" (URL_Path (Req (c s))) = false ->
  Contexter Error s
  = Ret () (with_c (mkContext (Req (c s))
                              (<["User" := VString (User si)]> (Data (c s)))
                              (Some si) (Written (c s)) (Cookies (c s))) s).
Proof.
  intros Hrec Hfe Hpath.
  pose proof (resolve_signed s si Hrec) as Hres. rewrite Hfe in Hres.
  rewrite (Contexter_signed s _ si Hres).
  change (URL_Path (Req (c (mapped si s)))) with (URL_Path (Req (c s))).
  rewrite Hpath. reflexivity.
Qed.

(** The first half of the binder when the record has no explorer and the
    backend refuses the record's user and password. *)
Lemma resolve_refused (s : state) (si : SessionInfo explorer) (err : GoError) :
  session_record s = Some si ->
  FileExplorer si = None ->
  answers s (User si) (Password si) = Some err ->
  exists si' s1,
    resolve_session Error (session s !! "uid") s = Ret (false, si') s1
    /\ Req (c s1) = Req (c s)
    /\ Written (c s1)
       = Written (c s)
         ++ [if IsApiPath (URL_Path (Req (c s)))
             then JSON 500 (GenericResp (mkBody false (Error err)))
             else Redirect "/login"]
    /\ Mapped (c s1) = Some si
    /\ cache s1 = cache s
    /\ session s1 = session s
    /\ next s1 = S (next s)
    /\ trace s1 = trace s ++ [Refused (next s) (User si)].
Proof.
  intros Hrec Hfe Hans.
  rewrite (resolve_signed s si Hrec), Hfe. unfold mapped, with_c.
  erewrite bind_Ret; [| unfold BackendConnect; fields; rewrite Hans; reflexivity].
  fields. cbn [snd fst]. cbn zeta. step.
  destruct (IsApiPath (URL_Path (Req (c s)))).
  - unfold ApiError. step. eexists _, _. split; [reflexivity |]. fields.
    repeat apply conj; reflexivity.
  - edestruct AuthError_returns
      as (s1 & Hauth & Hreq & Hw & Hm & Hc & Hs & Hn & Ht & _).
    erewrite bind_Ret; [| exact Hauth].
    eexists _, _. split; [reflexivity |].
    rewrite Hreq, Hw, Hm, Hc, Hs, Hn, Ht. fields.
    repeat apply conj; reflexivity.
Qed.

(** X6.  A request whose record has no explorer, the backend refusing the
    record's user and password, the path not under /login: the binder first
    answers the failure (a 500 envelope on an API path, a redirect to /login
    elsewhere) and then, the request counting as unsigned, writes a second
    answer, the redirect to /login.  The cache and the session keep the
    record. *)
Theorem failed_reconnect_writes_twice (s : state)
  (si : SessionInfo explorer) (err : GoError) :
  session_record s = Some si ->
  FileExplorer si = None ->
  answers s (User si) (Password si) = Some err ->
  String.prefix "/login" (URL_Path (Req (c s))) = false ->
  exists s',
    Contexter Error s = Ret () s'
    /\ Written (c s')
       = Written (c s)
         ++ [if IsApiPath (URL_Path (Req (c s)))
             then JSON 500 (GenericResp (mkBody false (Error err)))
             else Redirect "/login";
             Redirect "/login"]
    /\ cache s' = cache s
    /\ session s' = session s
    /\ trace s' = trace s ++ [Refused (next s) (User si)].
Proof.
  intros Hrec Hfe Hans Hpath.
  destruct (resolve_refused s si err Hrec Hfe Hans)
    as (si' & s1 & Hres & Hreq & Hw & _ & Hc & Hs & _ & Ht).
  rewrite (Contexter_unsigned_then s s1 si' Hres), Hreq, Hpath.
  eexists. split; [reflexivity |]. unfold c_Redirect, c_write, on_c. fields.
  rewrite Hw, <- app_assoc. repeat apply conj; try assumption. reflexivity.
Qed.

(** The first half of the binder returns, and when it finds the request
    signed the session has a uid and the record an explorer. *)
Lemma resolve_returns (s : state) :
  exists b si s1,
    resolve_session Error (session s !! "uid") s = Ret (b, si) s1
    /\ (b = true ->
        is_Some (FileExplorer si) /\ is_Some (session s !! "uid")).
Proof.
  destruct (session_record s) as [si|] eqn:Hrec.
  - destruct (session_record_Some s si Hrec) as (uid & Huid & _).
    destruct (FileExplorer si) as [e|] eqn:Hfe.
    + pose proof (resolve_signed s si Hrec) as Hres. rewrite Hfe in Hres.
      eexists _, _, _. split; [exact Hres |]. intros _.
      rewrite Hfe, Huid. split; eexists; reflexivity.
    + destruct (answers s (User si) (Password si)) as [err|] eqn:Hans.
      * destruct (resolve_refused s si err Hrec Hfe Hans)
          as (si' & s1 & Hres & _).
        eexists _, _, _. split; [exact Hres | discriminate].
      * rewrite (resolve_signed s si Hrec), Hfe. unfold mapped, with_c.
        erewrite bind_Ret;
          [| unfold BackendConnect; fields; rewrite Hans; reflexivity].
        eexists _, _, _. split; [reflexivity |]. intros _.
        rewrite Huid. split; eexists; reflexivity.
  - destruct (resolve_unsigned s Hrec) as [si Hres].
    eexists _, _, _. split; [exact Hres | discriminate].
Qed.

(** X7.  The binder returns on every request and every state of the cache and
    the session: the type assertions on the session's uid and the cache's
    record and the call of Close at logout are reached only with a string, a
    record and an explorer that is not nil. *)
Theorem Contexter_never_panics (s : state) :
  exists s', Contexter Error s = Ret () s'.
Proof.
  destruct (resolve_returns s) as (b & si & s1 & Hres & Hsigned).
  destruct b.
  - destruct (Hsigned eq_refl) as [[e He] [uid Huid]].
    rewrite (Contexter_signed s s1 si Hres), He, Huid.
    destruct (String.prefix "/logout" (URL_Path (Req (c s1))));
      [| eexists; reflexivity].
    destruct s1 as [[rq d mp wr ck] ca se fl an nx tr].
    do 4 step. eexists. reflexivity.
  - rewrite (Contexter_unsigned_then s s1 si Hres).
    destruct s1 as [[rq d mp wr ck] ca se fl an nx tr]. fields.
    destruct (String.prefix "/login" (URL_Path rq));
      [| eexists; reflexivity].
    destruct (String.eqb (Method rq) "POST"); [| eexists; reflexivity].
    destruct (an (Query rq "username") (Query rq "password")) as [err|] eqn:Hans.
    + erewrite bind_Ret;
        [| unfold BackendConnect; fields; rewrite Hans; reflexivity].
      cbn [snd fst]. edestruct AuthError_returns as (s1 & Hauth & _).
      rewrite Hauth. eexists. reflexivity.
    + erewrite bind_Ret;
        [| unfold BackendConnect; fields; rewrite Hans; reflexivity].
      cbn [snd fst nil]. cbn zeta. do 4 step. eexists. reflexivity.
Qed.











Lemma enter_leave_other (i j : Incoming) (w : World) (s : state) :
  cookie j <> cookie i ->
  session (enter j (leave i w s)) = default ∅ (w_sessions w !! cookie j).
Proof.
  intros Hne. unfold enter, leave. cbn [session w_sessions].
  rewrite lookup_insert_ne; [reflexivity | congruence].
Qed.

Lemma enter_leave_same (i j : Incoming) (w : World) (s : state) :
  cookie j = cookie i -> session (enter j (leave i w s)) = session s.
Proof.
  intros Heq. unfold enter, leave. cbn [session w_sessions].
  rewrite Heq, lookup_insert_eq. reflexivity.
Qed.

(** X9.  The cache is keyed by the user name alone.  When a browser logs in
    under a name another browser is signed in with, that other browser's
    next request is signed with the record of the later login: its password
    and its explorer. *)
Theorem a_later_login_rebinds_every_browser_of_the_user
  (w : World) (i j : Incoming) (u p : string) :
  Query (request i) "username" = u ->
  Query (request i) "password" = p ->
  session_record (enter i w) = None ->
  String.prefix "/login" (URL_Path (request i)) = true ->
  String.eqb (Method (request i)) "POST" = true ->
  backend_answers i u p = nil ->
  String.eqb u "" = false -> String.eqb p "" = false ->
  cookie j <> cookie i ->
  default ∅ (w_sessions w !! cookie j) !! "uid" = Some u ->
  session_record (enter j (serve Error i w))
  = Some (mkSessionInfo u p (Some (w_next w)) u).
Proof.
  intros Hqu Hqp Hrec Hpath Hm Hans Hu Hp Hne Hj. subst u p.
  destruct (login_accepted (enter i w) Hrec Hpath Hm Hans)
    as (s' & Hrun & Hc & _).
  unfold serve. rewrite Hrun. cbn [world_of].
  unfold session_record. rewrite (enter_leave_other i j w s' Hne), Hj.
  change (cache (enter j (leave i w s'))) with (cache s').
  rewrite Hc.
  change (Req (c (enter i w))) with (request i).
  rewrite lookup_insert_eq. cbn [User Password]. rewrite Hu, Hp. reflexivity.
Qed.

(** X10.  A logout deletes the user's only record.  Every browser whose
    session carries that uid, the one that logged out or another, is
    unsigned on its next request, and outside /login is redirected to
    /login. *)
Theorem logout_signs_out_every_browser_of_the_user
  (w : World) (i j : Incoming) (uid : string) (si : SessionInfo explorer)
  (e : explorer) :
  session_record (enter i w) = Some si ->
  default ∅ (w_sessions w !! cookie i) !! "uid" = Some uid ->
  FileExplorer si = Some e ->
  String.prefix "/logout" (URL_Path (request i)) = true ->
  default ∅ (w_sessions w !! cookie j) !! "uid" = Some uid ->
  String.prefix "/login" (URL_Path (request j)) = false ->
  session_record (enter j (serve Error i w)) = None
  /\ Written (c (world_of (Contexter Error (enter j (serve Error i w)))))
     = [Redirect "/login"].
Proof.
  intros Hrec Hi Hfe Hpath Hj Hjpath.
  destruct (session_record_Some _ _ Hrec) as (uid' & Huid & Hc & Hup).
  assert (uid' = uid) as -> by (cbn [enter session] in Huid; congruence).
  apply orb_false_elim in Hup as [Hu Hp].
  destruct (logout_closes_then_deletes Error (enter i w) uid si e
              Huid Hc Hu Hp Hfe Hpath) as (s' & Hrun & _ & Hca & Hse).
  assert (Hnone : session_record (enter j (serve Error i w)) = None).
  { unfold serve. rewrite Hrun. cbn [world_of]. unfold session_record.
    change (cache (enter j (leave i w s'))) with (cache s').
    destruct (decide (cookie j = cookie i)) as [Heq | Hne].
    - rewrite (enter_leave_same i j w s' Heq), Hse, lookup_delete_eq.
      reflexivity.
    - rewrite (enter_leave_other i j w s' Hne), Hj, Hca, lookup_delete_eq.
      reflexivity. }
  split; [exact Hnone |].
  rewrite (unsigned_redirect _ Hnone Hjpath). reflexivity.
Qed.




End BinderRuns.

(** A browser without a session asks for /files. *)
Lemma a_stranger_is_sent_to_login :
  Contexter plain_Error (enter (visit 1 "GET" "/files") init)
  = Ret () (with_c (mkContext (mkRequest "/files" "GET" (fun _ => "")) ∅ None
                              ([] ++ [Redirect "/login"]) [])
                   (enter (visit 1 "GET" "/files") init)).
Proof.
  apply (unsigned_request_is_sent_to_login plain_Error
           (enter (visit 1 "GET" "/files") init));
    vm_compute; reflexivity.
Defined.

(** A browser without a session asks for the login page. *)
Lemma a_stranger_gets_the_login_page :
  Contexter plain_Error (enter (visit 1 "GET" "/login") init)
  = Ret () (enter (visit 1 "GET" "/login") init).
Proof.
  apply (unsigned_login_page_passes plain_Error); vm_compute; reflexivity.
Defined.

(** alice logs in from the browser with cookie 1. *)
Lemma alice_is_bound :
  exists s',
    Contexter plain_Error (enter (login 1 "alice" "secret") init) = Ret () s'
    /\ cache s'
       = <["alice" := mkSessionInfo "alice" "secret" (Some 0%nat) "alice"]> ∅
    /\ session s' = <["uid" := "alice"]> ∅
    /\ next s' = 1%nat
    /\ trace s' = [] ++ [Connected 0%nat "alice"; CachePut "alice"]
    /\ Mapped (c s') = cache s' !! "alice"
    /\ Written (c s') = [] ++ [Redirect "/"].
Proof.
  apply (accepted_login_binds_a_new_explorer plain_Error
           (enter (login 1 "alice" "secret") init));
    vm_compute; reflexivity.
Defined.

(** alice logs in while the backend refuses. *)
Lemma alice_is_refused :
  exists s',
    Contexter plain_Error (enter (refused_login 1 "alice" "secret") init)
    = Ret () s'
    /\ cache s' = ∅
    /\ session s' = ∅
    /\ Mapped (c s') = None
    /\ f s' !! "ErrorMsg" = Some "error"
    /\ Data (c s') !! "ErrorMsg" = Some (VString "error")
    /\ Written (c s') = [] ++ [Redirect "/login"]
    /\ trace s' = [] ++ [Refused 0%nat "alice"].
Proof.
  apply (refused_login_changes_no_binding plain_Error
           (enter (refused_login 1 "alice" "secret") init)
           (ErrorString "ssh: unable to authenticate"));
    vm_compute; reflexivity.
Defined.

(** alice, logged in, lists a directory. *)
Lemma alice_keeps_her_explorer :
  Contexter plain_Error (enter (visit 1 "POST" "/api/_") alice_in)
  = Ret () (with_c
              (mkContext
                 (Req (c (enter (visit 1 "POST" "/api/_") alice_in)))
                 (<["User" := VString "alice"]> ∅)
                 (Some (mkSessionInfo "alice" "secret" (Some 0%nat) "alice"))
                 [] [])
              (enter (visit 1 "POST" "/api/_") alice_in)).
Proof.
  apply (signed_request_reuses_the_cached_explorer plain_Error
           (enter (visit 1 "POST" "/api/_") alice_in)
           (mkSessionInfo "alice" "secret" (Some 0%nat) "alice") 0%nat);
    vm_compute; reflexivity.
Defined.

(** alice's record has no explorer and the backend refuses: her request to
    the API gets the 500 envelope and then a redirect. *)
Lemma alice_unconnected_is_answered_twice :
  exists s',
    Contexter plain_Error
      (enter (refused_visit 1 "POST" "/api/_") alice_unconnected)
    = Ret () s'
    /\ Written (c s')
       = [] ++ [JSON 500 (GenericResp (mkBody false "error"));
                Redirect "/login"]
    /\ cache s' = w_cache alice_unconnected
    /\ session s' = {[ "uid" := "alice" ]}
    /\ trace s' = [] ++ [Refused 0%nat "alice"].
Proof.
  apply (failed_reconnect_writes_twice plain_Error
           (enter (refused_visit 1 "POST" "/api/_") alice_unconnected)
           (mkSessionInfo "alice" "secret" None "alice")
           (ErrorString "ssh: unable to authenticate"));
    vm_compute; reflexivity.
Defined.


(** alice is logged in from the browser with cookie 1; somebody logs in as
    alice with another password from the browser with cookie 2.  The first
    browser's next request is signed with the second login's record. *)
Lemma the_first_browser_gets_the_second_login :
  session_record
    (enter (visit 1 "POST" "/api/_")
           (serve plain_Error (login 2 "alice" "other") alice_in))
  = Some (mkSessionInfo "alice" "other" (Some 1%nat) "alice").
Proof.
  apply (a_later_login_rebinds_every_browser_of_the_user plain_Error alice_in
           (login 2 "alice" "other") (visit 1 "POST" "/api/_")
           "alice" "other");
    try (vm_compute; reflexivity).
  discriminate.
Defined.

(** alice is logged in from two browsers and logs out from the second: the
    first is sent to /login. *)
Lemma the_first_browser_is_signed_out :
  session_record
    (enter (visit 1 "GET" "/")
       (serve plain_Error (visit 2 "GET" "/logout")
          (serve plain_Error (login 2 "alice" "secret") alice_in)))
  = None
  /\ Written
       (c (world_of
             (Contexter plain_Error
                (enter (visit 1 "GET" "/")
                   (serve plain_Error (visit 2 "GET" "/logout")
                      (serve plain_Error (login 2 "alice" "secret")
                             alice_in))))))
     = [Redirect "/login"].
Proof.
  apply (logout_signs_out_every_browser_of_the_user plain_Error
           (serve plain_Error (login 2 "alice" "secret") alice_in)
           (visit 2 "GET" "/logout") (visit 1 "GET" "/") "alice"
           (mkSessionInfo "alice" "secret" (Some 1%nat) "alice") 1%nat);
    vm_compute; reflexivity.
Defined.



End MainFacts.
